(** * median-code mock API: token verification and the scoped entity store

    A shallow embedding of [mock_api/data/store.py] and
    [mock_api/auth/clerk.py], with the properties of the design document
    stated over it.

    Conventions.
    - Python dictionaries keyed by strings are [gmap string _]; a
      [defaultdict(list)] is a [gmap string (list string)] read with the
      default [[]].
    - Python exceptions are values of [exn]; code that may raise returns a
      [result].
    - Library calls (pydantic model constructors, PyJWT, httpx, the iteration
      order of a Python [set]) are parameters of the development. *)

From stdpp Require Import gmap strings list fin_maps pretty.
From Stdlib Require Import ZArith Lia.

Set Warnings "-register-all".
Local Open Scope string_scope.
Local Open Scope Z_scope.

(** ** Python values and exceptions *)

(** A decoded JSON document ([json.load], [response.json()], a JWT header or
    payload).  Numbers are integers here. *)
Inductive json : Type :=
  | JNull
  | JBool (b : bool)
  | JNum (n : Z)
  | JStr (s : string)
  | JArr (l : list json)
  | JObj (kv : list (string * json)).

(** Python truthiness ([if x:], [not x], [x or y]). *)
Definition truthy (v : json) : bool :=
  match v with
  | JNull => false
  | JBool b => b
  | JNum n => negb (n =? 0)
  | JStr s => negb (String.eqb s "")
  | JArr l => match l with [] => false | _ => true end
  | JObj kv => match kv with [] => false | _ => true end
  end.

(** Truthiness of an [Optional[str]] argument. *)
Definition truthy_opt_str (o : option string) : bool :=
  match o with
  | None => false
  | Some s => negb (String.eqb s "")
  end.

(** The exceptions the two modules raise or catch.  [InvalidTokenError]
    stands for every subclass of [jwt.InvalidTokenError] other than the two
    named ones; [PyError] for every other [Exception]. *)
Inductive exn : Type :=
  | HTTPException (status_code : Z) (detail : string)
  | ExpiredSignatureError (msg : string)
  | InvalidIssuerError (msg : string)
  | InvalidTokenError (msg : string)
  | KeyError (key : string)
  | ValidationError (msg : string)
  | FileNotFoundError (msg : string)
  | PyError (msg : string).

(** [str(e)].  An [HTTPException] prints as ["<status>: <detail>"]. *)
Definition str_exn (e : exn) : string :=
  match e with
  | HTTPException sc d => pretty sc +:+ ": " +:+ d
  | ExpiredSignatureError m | InvalidIssuerError m | InvalidTokenError m
  | ValidationError m | FileNotFoundError m | PyError m => m
  | KeyError k => "'" +:+ k +:+ "'"
  end.

Inductive result (A : Type) : Type :=
  | Ok (a : A)
  | Raise (e : exn).
Arguments Ok {A} a.
Arguments Raise {A} e.

#[global] Instance result_ret : MRet result := λ A a, Ok a.
#[global] Instance result_bind : MBind result := λ A B f m,
  match m with
  | Ok a => f a
  | Raise e => Raise e
  end.

#[global] Instance result_fmap : FMap result := λ A B f m,
  match m with
  | Ok a => Ok (f a)
  | Raise e => Raise e
  end.

(** [d.get(k)] on a decoded JSON object; the first binding of a key is the
    one the dictionary holds. *)
Fixpoint assoc_get (k : string) (kv : list (string * json)) : option json :=
  match kv with
  | [] => None
  | (k', v) :: kv' => if String.eqb k k' then Some v else assoc_get k kv'
  end.

(** [v.get(k, dflt)]: an [AttributeError] when [v] is not a dictionary. *)
Definition json_get (v : json) (k : string) (dflt : json) : result json :=
  match v with
  | JObj kv => Ok (default dflt (assoc_get k kv))
  | _ => Raise (PyError "AttributeError: object has no attribute 'get'")
  end.

(** [for x in v]: the elements of a list, the keys of a dictionary, the
    characters of a string; a [TypeError] otherwise. *)
Fixpoint chars (s : string) : list json :=
  match s with
  | EmptyString => []
  | String c s' => JStr (String c EmptyString) :: chars s'
  end.

Definition json_iter (v : json) : result (list json) :=
  match v with
  | JArr l => Ok l
  | JObj kv => Ok (map (λ p, JStr (fst p)) kv)
  | JStr s => Ok (chars s)
  | _ => Raise (PyError "TypeError: object is not iterable")
  end.

(** [a == b] on decoded JSON values ([True == 1] holds in Python). *)
Fixpoint py_eq (a b : json) : bool :=
  match a, b with
  | JNull, JNull => true
  | JBool x, JBool y => Bool.eqb x y
  | JBool x, JNum n | JNum n, JBool x => n =? (if x then 1 else 0)
  | JNum n, JNum m => n =? m
  | JStr s, JStr t => String.eqb s t
  | JArr l, JArr l' =>
      (fix go (l l' : list json) : bool :=
         match l, l' with
         | [], [] => true
         | x :: l, y :: l' => py_eq x y && go l l'
         | _, _ => false
         end) l l'
  | JObj kv, JObj kv' =>
      (length kv =? length kv')%nat
      && forallb (λ p, match assoc_get (fst p) kv' with
                       | Some v' => py_eq (snd p) v'
                       | None => false
                       end) kv
  | _, _ => false
  end.

(** [seq[start:stop]] for arbitrary integers. *)
Definition slice_index (len i : Z) : Z :=
  if i <? 0 then Z.max (len + i) 0 else Z.min i len.

Definition py_slice {A} (l : list A) (start stop : Z) : list A :=
  let len := Z.of_nat (length l) in
  let lo := slice_index len start in
  let hi := slice_index len stop in
  take (Z.to_nat (hi - lo)) (drop (Z.to_nat lo) l).

(** ** Models ([mock_api/models]) *)

(** Timestamps are kept as the ISO 8601 text they are loaded from. *)
Definition datetime := string.

Module Type_.
Record t : Type := mk {
  id : string;
  name : string;
  python_type : string;
  description : string;
  is_builtin : bool;
  is_nullable : bool;
  default_value : json;
  owner_id : string;
  account_id : string;
  created_at : datetime;
  updated_at : datetime
}.
End Type_.

Inductive ValidatorType : Type := LENGTH | RANGE | PATTERN | CUSTOM.

Module Validator.
Record t : Type := mk {
  id : string;
  name : string;
  validator_type : ValidatorType;
  description : string;
  config : list (string * json);
  error_message : string;
  owner_id : string;
  account_id : string;
  created_at : datetime;
  updated_at : datetime
}.
End Validator.

Module Field.
Record t : Type := mk {
  id : string;
  name : string;
  type_id : string;
  description : string;
  is_required : bool;
  is_unique : bool;
  is_indexed : bool;
  default_value : json;
  validator_ids : list string;
  namespace : string;
  owner_id : string;
  account_id : string;
  created_at : datetime;
  updated_at : datetime
}.
End Field.

Module Object.
Record t : Type := mk {
  id : string;
  name : string;
  description : string;
  field_ids : list string;
  namespace : string;
  table_name : string;
  is_active : bool;
  owner_id : string;
  account_id : string;
  created_at : datetime;
  updated_at : datetime
}.
End Object.

(** The attributes the store reads on every kind of entity.  [ent_namespace]
    is what the store's namespace filter reads: the [namespace] field of a
    Field or an Object, and [getattr(t, 'namespace', '')] on a Type or a
    Validator, which have no such field, so the default [''] . *)
Class Entity (A : Type) : Type := {
  ent_id : A → string;
  ent_owner_id : A → string;
  ent_account_id : A → string;
  ent_namespace : A → string
}.

#[global] Instance Type_Entity : Entity Type_.t :=
  {| ent_id := Type_.id; ent_owner_id := Type_.owner_id;
     ent_account_id := Type_.account_id; ent_namespace := λ _, "" |}.
#[global] Instance Validator_Entity : Entity Validator.t :=
  {| ent_id := Validator.id; ent_owner_id := Validator.owner_id;
     ent_account_id := Validator.account_id; ent_namespace := λ _, "" |}.
#[global] Instance Field_Entity : Entity Field.t :=
  {| ent_id := Field.id; ent_owner_id := Field.owner_id;
     ent_account_id := Field.account_id; ent_namespace := Field.namespace |}.
#[global] Instance Object_Entity : Entity Object.t :=
  {| ent_id := Object.id; ent_owner_id := Object.owner_id;
     ent_account_id := Object.account_id; ent_namespace := Object.namespace |}.

(** [UserClaims] of [auth/clerk.py]: the caller identity. *)
Record UserClaims : Type := {
  user_id : string;
  account_id : string;
  email : option string
}.

(** ** The data store ([mock_api/data/store.py]) *)

Record DataStore : Type := {
  types : gmap string Type_.t;
  validators : gmap string Validator.t;
  fields : gmap string Field.t;
  objects : gmap string Object.t;
  types_by_owner : gmap string (list string);
  validators_by_owner : gmap string (list string);
  fields_by_owner : gmap string (list string);
  objects_by_owner : gmap string (list string);
  types_by_account : gmap string (list string);
  validators_by_account : gmap string (list string);
  fields_by_account : gmap string (list string);
  objects_by_account : gmap string (list string)
}.

(** [DataStore.__init__] *)
Definition DataStore_init : DataStore :=
  {| types := ∅; validators := ∅; fields := ∅; objects := ∅;
     types_by_owner := ∅; validators_by_owner := ∅;
     fields_by_owner := ∅; objects_by_owner := ∅;
     types_by_account := ∅; validators_by_account := ∅;
     fields_by_account := ∅; objects_by_account := ∅ |}.

(** [index.get(k, [])] *)
Definition index_get (index : gmap string (list string)) (k : string) : list string :=
  default [] (index !! k).

(** [index[k].append(x)] on a [defaultdict(list)] *)
Definition index_append (index : gmap string (list string)) (k x : string)
  : gmap string (list string) :=
  <[k := (index_get index k ++ [x])%list]> index.

(** The body of the [# Load types] loop, and its three siblings. *)
Definition add_type (o : Type_.t) (s : DataStore) : DataStore :=
  {| types := <[Type_.id o := o]> (types s);
     types_by_owner := index_append (types_by_owner s) (Type_.owner_id o) (Type_.id o);
     types_by_account := index_append (types_by_account s) (Type_.account_id o) (Type_.id o);
     validators := validators s; fields := fields s; objects := objects s;
     validators_by_owner := validators_by_owner s;
     fields_by_owner := fields_by_owner s; objects_by_owner := objects_by_owner s;
     validators_by_account := validators_by_account s;
     fields_by_account := fields_by_account s;
     objects_by_account := objects_by_account s |}.

Definition add_validator (o : Validator.t) (s : DataStore) : DataStore :=
  {| validators := <[Validator.id o := o]> (validators s);
     validators_by_owner :=
       index_append (validators_by_owner s) (Validator.owner_id o) (Validator.id o);
     validators_by_account :=
       index_append (validators_by_account s) (Validator.account_id o) (Validator.id o);
     types := types s; fields := fields s; objects := objects s;
     types_by_owner := types_by_owner s;
     fields_by_owner := fields_by_owner s; objects_by_owner := objects_by_owner s;
     types_by_account := types_by_account s;
     fields_by_account := fields_by_account s;
     objects_by_account := objects_by_account s |}.

Definition add_field (o : Field.t) (s : DataStore) : DataStore :=
  {| fields := <[Field.id o := o]> (fields s);
     fields_by_owner := index_append (fields_by_owner s) (Field.owner_id o) (Field.id o);
     fields_by_account := index_append (fields_by_account s) (Field.account_id o) (Field.id o);
     types := types s; validators := validators s; objects := objects s;
     types_by_owner := types_by_owner s;
     validators_by_owner := validators_by_owner s; objects_by_owner := objects_by_owner s;
     types_by_account := types_by_account s;
     validators_by_account := validators_by_account s;
     objects_by_account := objects_by_account s |}.

Definition add_object (o : Object.t) (s : DataStore) : DataStore :=
  {| objects := <[Object.id o := o]> (objects s);
     objects_by_owner := index_append (objects_by_owner s) (Object.owner_id o) (Object.id o);
     objects_by_account :=
       index_append (objects_by_account s) (Object.account_id o) (Object.id o);
     types := types s; validators := validators s; fields := fields s;
     types_by_owner := types_by_owner s;
     validators_by_owner := validators_by_owner s; fields_by_owner := fields_by_owner s;
     types_by_account := types_by_account s;
     validators_by_account := validators_by_account s;
     fields_by_account := fields_by_account s |}.

(** Code that mutates process-wide state and may raise: the state is
    threaded through, and the state at the point of a raise is kept. *)
Definition StateM (S A : Type) : Type := S → result A * S.

Definition st_ret {S A} (a : A) : StateM S A := λ s, (Ok a, s).
Definition st_bind {S A B} (m : StateM S A) (k : A → StateM S B) : StateM S B :=
  λ s, match m s with
       | (Ok a, s') => k a s'
       | (Raise e, s') => (Raise e, s')
       end.
Definition st_lift {S A} (r : result A) : StateM S A := λ s, (r, s).
Definition st_modify {S} (f : S → S) : StateM S unit := λ s, (Ok tt, f s).
(** [try: m except Exception as e: raise h(e)] *)
Definition st_reraise {S A} (m : StateM S A) (h : exn → exn) : StateM S A :=
  λ s, match m s with
       | (Ok a, s') => (Ok a, s')
       | (Raise e, s') => (Raise (h e), s')
       end.

Declare Scope state_scope.
Delimit Scope state_scope with state.
Notation "x <~ m ;; k" := (st_bind m (λ x, k))
  (at level 100, m at next level, right associativity) : state_scope.
Notation "m ;;; k" := (st_bind m (λ _, k))
  (at level 100, right associativity) : state_scope.

(** [for raw in raws: obj = Model( **raw ); <add obj>], one loop per kind. *)
Fixpoint load_loop {A} (new : json → result A) (add : A → DataStore → DataStore)
    (raws : list json) : StateM DataStore unit :=
  match raws with
  | [] => st_ret tt
  | raw :: raws' =>
      (obj <~ st_lift (new raw) ;;
       st_modify (add obj) ;;;
       load_loop new add raws')%state
  end.

Section store.
(** The pydantic constructors [Type], [Validator], [Field] and [Object]
    applied to the keywords of a raw record: a model, or the exception the
    validation raises. *)
Variable Type_new : json → result Type_.t.
Variable Validator_new : json → result Validator.t.
Variable Field_new : json → result Field.t.
Variable Object_new : json → result Object.t.

(** The order in which a Python [set] built by inserting the given ids
    one after the other is iterated. *)
Variable set_iter : list string → list string.

(** [DataStore.load_fixtures]; [file] is the outcome of opening and
    decoding the fixtures file: [None] when it does not exist. *)
Definition load_fixtures (file : option (result json)) : StateM DataStore unit :=
  match file with
  | None => st_lift (Raise (FileNotFoundError "Fixtures file not found"))
  | Some content =>
      (data <~ st_lift content ;;
       l <~ st_lift (json_get data "types" (JArr []) ≫= json_iter) ;;
       load_loop Type_new add_type l ;;;
       l <~ st_lift (json_get data "validators" (JArr []) ≫= json_iter) ;;
       load_loop Validator_new add_validator l ;;;
       l <~ st_lift (json_get data "fields" (JArr []) ≫= json_iter) ;;
       load_loop Field_new add_field l ;;;
       l <~ st_lift (json_get data "objects" (JArr []) ≫= json_iter) ;;
       load_loop Object_new add_object l)%state
  end.

(** The shared body of [list_types], [list_validators], [list_fields] and
    [list_objects]. *)
Definition list_scoped {A} `{Entity A} (primary : gmap string A)
    (by_owner by_account : gmap string (list string))
    (owner_id account_id : string) (limit offset : Z)
    (namespace : option string) : result (list A) :=
  let ids := set_iter (index_get by_owner owner_id ++ index_get by_account account_id)%list in
  result ← mapM (λ tid, match primary !! tid with
                        | Some o => Ok o
                        | None => Raise (KeyError tid)
                        end) ids;
  let result :=
    match namespace with
    | Some ns =>
        if truthy (JStr ns)
        then filter (λ t, ent_namespace t = ns) result
        else result
    | None => result
    end in
  Ok (py_slice result offset (offset + limit)).

(** The shared body of [get_type], [get_validator], [get_field] and
    [get_object]; a model instance is always truthy. *)
Definition get_scoped {A} `{Entity A} (primary : gmap string A)
    (id owner_id account_id : string) : option A :=
  match primary !! id with
  | None => None
  | Some o =>
      if bool_decide (ent_owner_id o = owner_id)
         || bool_decide (ent_account_id o = account_id)
      then Some o
      else None
  end.

Definition list_types (s : DataStore) :=
  list_scoped (types s) (types_by_owner s) (types_by_account s).
Definition get_type (s : DataStore) := get_scoped (types s).
Definition list_validators (s : DataStore) :=
  list_scoped (validators s) (validators_by_owner s) (validators_by_account s).
Definition get_validator (s : DataStore) := get_scoped (validators s).
Definition list_fields (s : DataStore) :=
  list_scoped (fields s) (fields_by_owner s) (fields_by_account s).
Definition get_field (s : DataStore) := get_scoped (fields s).
Definition list_objects (s : DataStore) :=
  list_scoped (objects s) (objects_by_owner s) (objects_by_account s).
Definition get_object (s : DataStore) := get_scoped (objects s).

End store.

(** ** Token verification ([mock_api/auth/clerk.py]) *)

(** The three environment variables [get_clerk_config] reads. *)
Record Environ : Type := {
  CLERK_JWKS_URL : option string;
  CLERK_ISSUER : option string;
  REQUIRE_AUTH : option string
}.

(** The dictionary [get_clerk_config] returns. *)
Record Config : Type := {
  jwks_url : string;
  issuer : string;
  require_auth : string
}.

(** [str.lower] on ASCII text. *)
Definition lower_ascii (c : Ascii.ascii) : Ascii.ascii :=
  let n := Ascii.N_of_ascii c in
  if ((65 <=? n) && (n <=? 90))%N then Ascii.ascii_of_N (n + 32) else c.

Fixpoint lower (s : string) : string :=
  match s with
  | EmptyString => EmptyString
  | String c s' => String (lower_ascii c) (lower s')
  end.

Definition get_clerk_config (env : Environ) : result Config :=
  let jwks_url := CLERK_JWKS_URL env in
  let issuer := CLERK_ISSUER env in
  let require_auth := String.eqb (lower (default "true" (REQUIRE_AUTH env))) "true" in
  if require_auth && (negb (truthy_opt_str jwks_url) || negb (truthy_opt_str issuer))
  then Raise (PyError
    "CLERK_JWKS_URL and CLERK_ISSUER environment variables must be set when REQUIRE_AUTH=true")
  else Ok {| jwks_url := default "" jwks_url;
             issuer := default "" issuer;
             require_auth := if require_auth then "true" else "false" |}.

(** The module globals [_jwks_cache] and [_jwks_cache_time].  Time is
    counted in whole seconds; the source holds it in a float. *)
Record KeyCache : Type := {
  _jwks_cache : json;
  _jwks_cache_time : Z
}.

Definition KeyCache_init : KeyCache :=
  {| _jwks_cache := JObj []; _jwks_cache_time := 0 |}.

Definition JWKS_CACHE_TTL : Z := 3600.

(** [UserClaims(user_id=.., account_id=.., email=..)]: pydantic accepts a
    string for a [str] field, and a string or [None] for [Optional[str]]. *)
Definition UserClaims_new (user_id account_id email : json) : result UserClaims :=
  match user_id, account_id with
  | JStr u, JStr a =>
      match email with
      | JStr e => Ok {| user_id := u; account_id := a; email := Some e |}
      | JNull => Ok {| user_id := u; account_id := a; email := None |}
      | _ => Raise (ValidationError "email: Input should be a valid string")
      end
  | JStr _, _ => Raise (ValidationError "account_id: Input should be a valid string")
  | _, _ => Raise (ValidationError "user_id: Input should be a valid string")
  end.

(** The tail of [get_current_user]: from the verified claims to the caller
    identity. *)
Definition extract_user_claims (claims : json) : result UserClaims :=
  user_id ← json_get claims "sub" JNull;
  org_id ← json_get claims "org_id" JNull;
  account_id ← (if truthy org_id then Ok org_id else json_get claims "sub" JNull);
  email ← json_get claims "email" JNull;
  if negb (truthy user_id)
  then Raise (HTTPException 401 "Invalid token claims: missing user_id")
  else UserClaims_new user_id account_id email.

(** The [except] clauses of [verify_token], in order. *)
Definition verify_token_handler (e : exn) : exn :=
  match e with
  | ExpiredSignatureError _ => HTTPException 401 "Token has expired"
  | InvalidIssuerError _ => HTTPException 401 "Invalid token issuer"
  | InvalidTokenError m => HTTPException 401 ("Invalid token: " +:+ m)
  | _ => HTTPException 401 ("Authentication failed: " +:+ str_exn e)
  end.

Section auth.
(** The configuration, as cached by [lru_cache]. *)
Variable config : Config.
(** [time.time()] during the call. *)
Variable current_time : Z.
(** [httpx.get(url, timeout=10.0)], [raise_for_status()] and [json()]: the
    decoded body, or whatever exception one of the three raises. *)
Variable http_get_json : string → result json.
(** [jwt.get_unverified_header] *)
Variable get_unverified_header : string → result json.
(** Public keys, and [jwt.algorithms.RSAAlgorithm.from_jwk]; a key object is
    truthy. *)
Variable Key : Type.
Variable from_jwk : json → result Key.
(** [jwt.decode(token, key, algorithms=["RS256"], issuer=.., options={"verify_aud": False})] *)
Variable jwt_decode : string → Key → string → result json.

Definition fetch_jwks : StateM KeyCache json :=
  λ c,
    if truthy (_jwks_cache c) && (current_time - _jwks_cache_time c <? JWKS_CACHE_TTL)
    then (Ok (_jwks_cache c), c)
    else
      let jwks_url := jwks_url config in
      if negb (truthy (JStr jwks_url))
      then (Ok (JObj []), c)
      else
        match http_get_json jwks_url with
        | Ok body =>
            let c' := {| _jwks_cache := body; _jwks_cache_time := current_time |} in
            (Ok (_jwks_cache c'), c')
        | Raise e =>
            (Raise (HTTPException 503 ("Failed to fetch JWKS: " +:+ str_exn e)), c)
        end.

(** The [for key in keys] loop of [get_signing_key]. *)
Fixpoint find_signing_key (keys : list json) (kid : json) : result (option Key) :=
  match keys with
  | [] => Ok None
  | key :: keys' =>
      k ← json_get key "kid" JNull;
      if py_eq k kid
      then signing_key ← from_jwk key; Ok (Some signing_key)
      else find_signing_key keys' kid
  end.

Definition get_signing_key (token : string) : StateM KeyCache Key :=
  (jwks <~ fetch_jwks ;;
   st_lift (
     if negb (truthy jwks)
     then Raise (HTTPException 500 "JWKS not available")
     else
       kid ← match get_unverified_header token ≫= λ h, json_get h "kid" JNull with
             | Ok kid => Ok kid
             | Raise e => Raise (HTTPException 401 ("Invalid token header: " +:+ str_exn e))
             end;
       keys ← json_get jwks "keys" (JArr []);
       keys ← json_iter keys;
       signing_key ← find_signing_key keys kid;
       match signing_key with
       | None => Raise (HTTPException 401 "Unable to find signing key")
       | Some signing_key => Ok signing_key
       end))%state.

Definition verify_token (token : string) : StateM KeyCache json :=
  if String.eqb (require_auth config) "false"
  then st_ret (JObj [("sub", JStr "user_test123");
                     ("org_id", JStr "acct_test123");
                     ("email", JStr "test@example.com")])
  else
    st_reraise
      (signing_key <~ get_signing_key token ;;
       st_lift (jwt_decode token signing_key (issuer config)))%state
      verify_token_handler.

(** [get_current_user]; [token] is [credentials.credentials]. *)
Definition get_current_user (token : string) : StateM KeyCache UserClaims :=
  if String.eqb (require_auth config) "false"
  then st_ret {| user_id := "user_test123";
                 account_id := "acct_test123";
                 email := Some "test@example.com" |}
  else
    (claims <~ verify_token token ;;
     st_lift (extract_user_claims claims))%state.

End auth.

(** ** The error kinds of the design document

    The source raises [HTTPException]s and names no kinds; each kind is
    read off the status code and the detail text the source gives it. *)
Inductive ErrorKind : Type :=
  | MalformedCredential
  | MissingSigningKey
  | ExpiredCredential
  | InvalidIssuer
  | AuthenticationFailed
  | KeySourceUnavailable.

Definition error_kind (e : exn) : option ErrorKind :=
  match e with
  | HTTPException 401 d =>
      if String.prefix "Invalid token header: " d then Some MalformedCredential
      else if String.eqb d "Unable to find signing key" then Some MissingSigningKey
      else if String.eqb d "Token has expired" then Some ExpiredCredential
      else if String.eqb d "Invalid token issuer" then Some InvalidIssuer
      else if String.prefix "Invalid token: " d
              || String.prefix "Authentication failed: " d
              || String.eqb d "Invalid token claims: missing user_id"
           then Some AuthenticationFailed
      else None
  | HTTPException 503 d =>
      if String.prefix "Failed to fetch JWKS: " d then Some KeySourceUnavailable else None
  | _ => None
  end.

Definition result_kind {A} (r : result A) : option ErrorKind :=
  match r with
  | Ok _ => None
  | Raise e => error_kind e
  end.

(** ** Properties of the store: the vocabulary *)

(** The visibility rule: owner match or account match. *)
Definition visible {A} `{Entity A} (e : A) (c : UserClaims) : Prop :=
  ent_owner_id e = user_id c ∨ ent_account_id e = account_id c.

(** What loading maintains for one kind: an entity is filed under its own
    id, and every id listed in an index is a key of the primary map. *)
Definition table_wf {A} `{Entity A} (primary : gmap string A)
    (by_owner by_account : gmap string (list string)) : Prop :=
  (∀ k o, primary !! k = Some o → ent_id o = k)
  ∧ (∀ k i, i ∈ index_get by_owner k → is_Some (primary !! i))
  ∧ (∀ k i, i ∈ index_get by_account k → is_Some (primary !! i)).

Definition store_wf (s : DataStore) : Prop :=
  table_wf (types s) (types_by_owner s) (types_by_account s)
  ∧ table_wf (validators s) (validators_by_owner s) (validators_by_account s)
  ∧ table_wf (fields s) (fields_by_owner s) (fields_by_account s)
  ∧ table_wf (objects s) (objects_by_owner s) (objects_by_account s).

(** The contract of [get] for one kind, on the entities [primary] holds:
    the entity comes back exactly when it is visible, and when it is not,
    the answer is the one an id held by no entity gets. *)
Definition get_contract {A} `{Entity A} (primary : gmap string A)
    (get : string → string → string → option A) : Prop :=
  ∀ (E : A) (C : UserClaims),
    (∃ k, primary !! k = Some E) →
    (get (ent_id E) (user_id C) (account_id C) = Some E ↔ visible E C)
    ∧ (¬ visible E C →
       get (ent_id E) (user_id C) (account_id C) = None
       ∧ ∀ id', primary !! id' = None →
           get id' (user_id C) (account_id C)
           = get (ent_id E) (user_id C) (account_id C)).

(** The namespace step of the listing pipeline: a non-empty namespace keeps
    the entities whose namespace attribute is that very string. *)
Definition namespace_filter {A} `{Entity A} (namespace : option string)
    (l : list A) : list A :=
  match namespace with
  | Some ns => if decide (ns = "") then l else filter (λ e, ent_namespace e = ns) l
  | None => l
  end.



Section reachability.
Variable Type_new : json → result Type_.t.
Variable Validator_new : json → result Validator.t.
Variable Field_new : json → result Field.t.
Variable Object_new : json → result Object.t.

(** The stores a process can hold: a fresh one, after any number of loads,
    failed ones included. *)
Inductive reachable : DataStore → Prop :=
  | reachable_init : reachable DataStore_init
  | reachable_load file s :
      reachable s →
      reachable (snd (load_fixtures Type_new Validator_new Field_new Object_new file s)).

End reachability.

(** ** Datasets *)

(** A dataset: four sequences of raw records, one per kind, and the
    fixtures document that carries them. *)
Record Dataset : Type := {
  ds_types : list json;
  ds_validators : list json;
  ds_fields : list json;
  ds_objects : list json
}.

Definition dataset_json (d : Dataset) : json :=
  JObj [("types", JArr (ds_types d));
        ("validators", JArr (ds_validators d));
        ("fields", JArr (ds_fields d));
        ("objects", JArr (ds_objects d))].

Definition dataset_file (d : Dataset) : option (result json) :=
  Some (Ok (dataset_json d)).

Inductive raw_record : Type :=
  | RawType (raw : json)
  | RawValidator (raw : json)
  | RawField (raw : json)
  | RawObject (raw : json).

(** The records of a dataset in the order [load_fixtures] visits them. *)
Definition dataset_records (d : Dataset) : list raw_record :=
  (map RawType (ds_types d) ++ map RawValidator (ds_validators d)
   ++ map RawField (ds_fields d) ++ map RawObject (ds_objects d))%list.

Section ingestion.
Variable Type_new : json → result Type_.t.
Variable Validator_new : json → result Validator.t.
Variable Field_new : json → result Field.t.
Variable Object_new : json → result Object.t.

(** Validating one record and filing it. *)
Definition ingest (r : raw_record) (s : DataStore) : result DataStore :=
  match r with
  | RawType raw => o ← Type_new raw; Ok (add_type o s)
  | RawValidator raw => o ← Validator_new raw; Ok (add_validator o s)
  | RawField raw => o ← Field_new raw; Ok (add_field o s)
  | RawObject raw => o ← Object_new raw; Ok (add_object o s)
  end.

(** The exception validation raises on a record, if any. *)
Definition record_error (r : raw_record) : option exn :=
  match ingest r DataStore_init with
  | Ok _ => None
  | Raise e => Some e
  end.

Definition malformed (r : raw_record) : Prop := is_Some (record_error r).
Definition well_formed (r : raw_record) : Prop := record_error r = None.

(** The store after filing a run of records, one after the other. *)
Definition ingest_all (rs : list raw_record) (s : DataStore) : DataStore :=
  foldl (λ s r, match ingest r s with Ok s' => s' | Raise _ => s end) s rs.

(** Visiting records in order until one fails validation. *)
Fixpoint run_records (rs : list raw_record) : StateM DataStore unit :=
  match rs with
  | [] => st_ret tt
  | r :: rs' => λ s,
      match ingest r s with
      | Ok s' => run_records rs' s'
      | Raise e => (Raise e, s)
      end
  end.

End ingestion.

(** ** Sample collaborators

    Concrete stand-ins for the library calls, to run the code on examples. *)

Definition req_str (d : json) (k : string) : result string :=
  v ← json_get d k JNull;
  match v with
  | JStr s => Ok s
  | _ => Raise (ValidationError (k +:+ ": Input should be a valid string"))
  end.

Definition opt_str (d : json) (k dflt : string) : result string :=
  v ← json_get d k (JStr dflt);
  match v with
  | JStr s => Ok s
  | _ => Raise (ValidationError (k +:+ ": Input should be a valid string"))
  end.

Definition opt_bool (d : json) (k : string) (dflt : bool) : result bool :=
  v ← json_get d k (JBool dflt);
  match v with
  | JBool b => Ok b
  | _ => Raise (ValidationError (k +:+ ": Input should be a valid boolean"))
  end.

Definition opt_str_list (d : json) (k : string) : result (list string) :=
  v ← json_get d k (JArr []);
  match v with
  | JArr l => mapM (λ x, match x with
                         | JStr s => Ok s
                         | _ => Raise (ValidationError (k +:+ ": Input should be a valid string"))
                         end) l
  | _ => Raise (ValidationError (k +:+ ": Input should be a valid list"))
  end.

(** A strict reading of the [Type] model: required fields are strings,
    optional fields take the declared default when absent. *)
Definition sample_Type_new (d : json) : result Type_.t :=
  id ← req_str d "id";
  name ← req_str d "name";
  python_type ← req_str d "python_type";
  description ← opt_str d "description" "";
  is_builtin ← opt_bool d "is_builtin" true;
  is_nullable ← opt_bool d "is_nullable" false;
  default_value ← json_get d "default_value" JNull;
  owner_id ← req_str d "owner_id";
  account_id ← req_str d "account_id";
  created_at ← req_str d "created_at";
  updated_at ← req_str d "updated_at";
  Ok (Type_.mk id name python_type description is_builtin is_nullable
        default_value owner_id account_id created_at updated_at).

Definition sample_Validator_new (d : json) : result Validator.t :=
  id ← req_str d "id";
  name ← req_str d "name";
  vt ← req_str d "validator_type";
  validator_type ← (if String.eqb vt "length" then Ok LENGTH
                    else if String.eqb vt "range" then Ok RANGE
                    else if String.eqb vt "pattern" then Ok PATTERN
                    else if String.eqb vt "custom" then Ok CUSTOM
                    else Raise (ValidationError "validator_type: not a member of the enum"));
  description ← opt_str d "description" "";
  cfg ← json_get d "config" (JObj []);
  config ← match cfg with
           | JObj kv => Ok kv
           | _ => Raise (ValidationError "config: Input should be a valid dictionary")
           end;
  error_message ← opt_str d "error_message" "Validation failed";
  owner_id ← req_str d "owner_id";
  account_id ← req_str d "account_id";
  created_at ← req_str d "created_at";
  updated_at ← req_str d "updated_at";
  Ok (Validator.mk id name validator_type description config error_message
        owner_id account_id created_at updated_at).

Definition sample_Field_new (d : json) : result Field.t :=
  id ← req_str d "id";
  name ← req_str d "name";
  type_id ← req_str d "type_id";
  description ← opt_str d "description" "";
  is_required ← opt_bool d "is_required" false;
  is_unique ← opt_bool d "is_unique" false;
  is_indexed ← opt_bool d "is_indexed" false;
  default_value ← json_get d "default_value" JNull;
  validator_ids ← opt_str_list d "validator_ids";
  namespace ← opt_str d "namespace" "";
  owner_id ← req_str d "owner_id";
  account_id ← req_str d "account_id";
  created_at ← req_str d "created_at";
  updated_at ← req_str d "updated_at";
  Ok (Field.mk id name type_id description is_required is_unique is_indexed
        default_value validator_ids namespace owner_id account_id
        created_at updated_at).

Definition sample_Object_new (d : json) : result Object.t :=
  id ← req_str d "id";
  name ← req_str d "name";
  description ← opt_str d "description" "";
  field_ids ← opt_str_list d "field_ids";
  namespace ← opt_str d "namespace" "";
  table_name ← opt_str d "table_name" "";
  is_active ← opt_bool d "is_active" true;
  owner_id ← req_str d "owner_id";
  account_id ← req_str d "account_id";
  created_at ← req_str d "created_at";
  updated_at ← req_str d "updated_at";
  Ok (Object.mk id name description field_ids namespace table_name is_active
        owner_id account_id created_at updated_at).

(** A set that iterates in insertion order. *)
Definition sample_set_iter (l : list string) : list string := remove_dups l.

(** A raw record with the fields every kind requires. *)
Definition raw_entity (id owner account : string) (extra : list (string * json)) : json :=
  JObj ([("id", JStr id); ("name", JStr id);
         ("owner_id", JStr owner); ("account_id", JStr account);
         ("created_at", JStr "2024-01-01T00:00:00Z");
         ("updated_at", JStr "2024-01-01T00:00:00Z")] ++ extra)%list.

(** A small dataset in the shape of the fixtures: two tenants. *)
Definition sample_dataset : Dataset :=
  {| ds_types :=
       [raw_entity "type_1" "user_test123" "acct_test123" [("python_type", JStr "str")];
        raw_entity "type_2" "user_test123" "acct_test123" [("python_type", JStr "int")];
        raw_entity "type_4" "user_other456" "acct_other456" [("python_type", JStr "str")]];
     ds_validators :=
       [raw_entity "val_1" "user_test123" "acct_test123" [("validator_type", JStr "pattern")];
        raw_entity "val_4" "user_other456" "acct_other456" [("validator_type", JStr "custom")]];
     ds_fields :=
       [raw_entity "field_1" "user_test123" "acct_test123"
          [("type_id", JStr "type_1"); ("namespace", JStr "user")];
        raw_entity "field_2" "user_test123" "acct_test123" [("type_id", JStr "type_2")];
        raw_entity "field_5" "user_other456" "acct_other456"
          [("type_id", JStr "type_4"); ("namespace", JStr "game")]];
     ds_objects :=
       [raw_entity "obj_1" "user_test123" "acct_test123" [("namespace", JStr "user")];
        raw_entity "obj_3" "user_other456" "acct_other456" [("namespace", JStr "game")]] |}.

Definition sample_load (d : Dataset) : StateM DataStore unit :=
  load_fixtures sample_Type_new sample_Validator_new sample_Field_new
    sample_Object_new (dataset_file d).

Definition sample_store : DataStore := snd (sample_load sample_dataset DataStore_init).

Definition test_user : UserClaims :=
  {| user_id := "user_test123"; account_id := "acct_test123";
     email := Some "test@example.com" |}.

Definition other_user : UserClaims :=
  {| user_id := "user_other456"; account_id := "acct_other456";
     email := Some "other@example.com" |}.

(** A dataset whose second type record lacks its [python_type]. *)
Definition broken_dataset : Dataset :=
  {| ds_types :=
       [raw_entity "type_1" "user_test123" "acct_test123" [("python_type", JStr "str")];
        raw_entity "type_2" "user_test123" "acct_test123" []];
     ds_validators := []; ds_fields := []; ds_objects := [] |}.

(** Collaborators of the token verifier.  A sample token is the text of its
    own key identifier; the text [garbage] has no header that parses. *)
Definition sample_config : Config :=
  {| jwks_url := "https://clerk.example/.well-known/jwks.json";
     issuer := "https://clerk.example";
     require_auth := "true" |}.

Definition bypass_config : Config :=
  {| jwks_url := ""; issuer := ""; require_auth := "false" |}.

Definition sample_jwks : json :=
  JObj [("keys", JArr [JObj [("kid", JStr "key_1"); ("kty", JStr "RSA")]])].

Definition sample_http_get (url : string) : result json := Ok sample_jwks.

Definition failing_http_get (url : string) : result json :=
  Raise (PyError "ConnectTimeout").

Definition sample_get_unverified_header (token : string) : result json :=
  if String.eqb token "garbage"
  then Raise (InvalidTokenError "Not enough segments")
  else Ok (JObj [("alg", JStr "RS256"); ("kid", JStr token)]).

Definition sample_from_jwk (key : json) : result string := req_str key "kid".

Definition sample_jwt_decode (token key issuer : string) : result json :=
  Ok (JObj [("sub", JStr "user_1"); ("iss", JStr issuer)]).

(** A cache that was filled at time 0. *)
Definition filled_cache : KeyCache :=
  {| _jwks_cache := sample_jwks; _jwks_cache_time := 0 |}.

(** The value of a claim: [claims.get(k)]. *)
Definition claim (kv : list (string * json)) (k : string) : json :=
  default JNull (assoc_get k kv).

(** The [email] of an identity as a JSON value. *)
Definition email_json (u : UserClaims) : json :=
  match email u with
  | Some e => JStr e
  | None => JNull
  end.

(** ** The store singleton, the routes and the health check *)

Section singleton.
Variable Type_new : json → result Type_.t.
Variable Validator_new : json → result Validator.t.
Variable Field_new : json → result Field.t.
Variable Object_new : json → result Object.t.

(** [get_data_store]; the state is the module global [_data_store].  The
    global is bound to the new store before the store is loaded, so it stays
    bound to that store when the load raises. *)
Definition get_data_store (file : option (result json))
  : StateM (option DataStore) DataStore :=
  λ g, match g with
       | Some s => (Ok s, Some s)
       | None =>
           match load_fixtures Type_new Validator_new Field_new Object_new
                   file DataStore_init with
           | (Ok _, s) => (Ok s, Some s)
           | (Raise e, s) => (Raise e, Some s)
           end
       end.

End singleton.

(** The [GET /{id}] handlers of [mock_api/routes]; [store] and
    [current_user] are what the two dependencies have produced. *)
Module Routes.
Definition get_type (type_id : string) (current_user : UserClaims) (store : DataStore)
  : result Type_.t :=
  match get_type store type_id (user_id current_user) (account_id current_user) with
  | None => Raise (HTTPException 404
                     ("Type with ID '" +:+ type_id +:+ "' not found or access denied"))
  | Some type_obj => Ok type_obj
  end.

Definition get_validator (validator_id : string) (current_user : UserClaims)
    (store : DataStore) : result Validator.t :=
  match get_validator store validator_id
          (user_id current_user) (account_id current_user) with
  | None => Raise (HTTPException 404
                     ("Validator with ID '" +:+ validator_id
                      +:+ "' not found or access denied"))
  | Some validator_obj => Ok validator_obj
  end.

Definition get_field (field_id : string) (current_user : UserClaims) (store : DataStore)
  : result Field.t :=
  match get_field store field_id (user_id current_user) (account_id current_user) with
  | None => Raise (HTTPException 404
                     ("Field with ID '" +:+ field_id +:+ "' not found or access denied"))
  | Some field_obj => Ok field_obj
  end.

Definition get_object (object_id : string) (current_user : UserClaims)
    (store : DataStore) : result Object.t :=
  match get_object store object_id (user_id current_user) (account_id current_user) with
  | None => Raise (HTTPException 404
                     ("Object with ID '" +:+ object_id +:+ "' not found or access denied"))
  | Some object_obj => Ok object_obj
  end.
End Routes.

(** The counts the [/health] endpoint of [main.py] reports. *)
Record HealthData : Type := {
  h_types : nat;
  h_validators : nat;
  h_fields : nat;
  h_objects : nat
}.

Definition health (store : DataStore) : HealthData :=
  {| h_types := size (types store);
     h_validators := size (validators store);
     h_fields := size (fields store);
     h_objects := size (objects store) |}.

(** ** Pages *)

(** A listing for one caller, as a function of limit, offset and namespace. *)
Definition lister (A : Type) : Type := Z → Z → option string → result (list A).

(** Consecutive pages join into the page that covers them both. *)
Definition pages_compose {A} (listing : lister A) : Prop :=
  ∀ (L1 L2 O : Z) (namespace : option string),
    0 ≤ O → 0 ≤ L1 → 0 ≤ L2 →
    ∃ a b,
      listing L1 O namespace = Ok a
      ∧ listing L2 (O + L1) namespace = Ok b
      ∧ listing (L1 + L2) O namespace = Ok (a ++ b)%list.

(** Every page is cut from one full listing: no integers, negative ones
    included, make the call raise or return anything that is not a
    sub-sequence of the full listing, in its order; the full listing is the page of its own length at
    offset 0; and a page at a non-negative offset [O] with a non-negative
    limit [L] holds [min L (n - O)] entities of the [n] listed, none when
    [O] is at or past the end. *)
Definition pages_of_one_listing {A} (listing : lister A) : Prop :=
  ∀ namespace : option string,
    ∃ full : list A,
      listing (Z.of_nat (length full)) 0 namespace = Ok full
      ∧ (∀ L O : Z, ∃ page, listing L O namespace = Ok page ∧ page `sublist_of` full)
      ∧ (∀ L O : Z, 0 ≤ O → 0 ≤ L →
           ∃ page, listing L O namespace = Ok page
                   ∧ Z.of_nat (length page)
                     = Z.min L (Z.max 0 (Z.of_nat (length full) - O))).

(** ** Exact indexes *)

(** The two indexes say exactly who owns what: an id is listed under an
    owner (an account) exactly when the primary map holds, under that id, an
    entity of that owner (account). *)
Definition table_exact {A} `{Entity A} (primary : gmap string A)
    (by_owner by_account : gmap string (list string)) : Prop :=
  (∀ k o, primary !! k = Some o → ent_id o = k)
  ∧ (∀ k i, i ∈ index_get by_owner k ↔ ∃ o, primary !! i = Some o ∧ ent_owner_id o = k)
  ∧ (∀ k i, i ∈ index_get by_account k
            ↔ ∃ o, primary !! i = Some o ∧ ent_account_id o = k).

Definition store_exact (s : DataStore) : Prop :=
  table_exact (types s) (types_by_owner s) (types_by_account s)
  ∧ table_exact (validators s) (validators_by_owner s) (validators_by_account s)
  ∧ table_exact (fields s) (fields_by_owner s) (fields_by_account s)
  ∧ table_exact (objects s) (objects_by_owner s) (objects_by_account s).

(** The ids of the records of one kind that pass validation. *)
Definition valid_ids {A} `{Entity A} (new : json → result A) (raws : list json)
  : list string :=
  omap (λ raw, match new raw with Ok o => Some (ent_id o) | Raise _ => None end) raws.

(** The four kinds, an entity of any kind, and the place an entity is
    filed at: its kind and id. *)
Inductive kind : Type := KType | KValidator | KField | KObject.

#[global] Instance kind_eq_dec : EqDecision kind.
Proof. solve_decision. Defined.

Inductive entity : Type :=
  | EType (o : Type_.t)
  | EValidator (o : Validator.t)
  | EField (o : Field.t)
  | EObject (o : Object.t).

Definition entity_key (e : entity) : kind * string :=
  match e with
  | EType o => (KType, ent_id o)
  | EValidator o => (KValidator, ent_id o)
  | EField o => (KField, ent_id o)
  | EObject o => (KObject, ent_id o)
  end.

Definition add_entity (e : entity) (s : DataStore) : DataStore :=
  match e with
  | EType o => add_type o s
  | EValidator o => add_validator o s
  | EField o => add_field o s
  | EObject o => add_object o s
  end.

(** What a primary map holds at a place. *)
Definition store_lookup (s : DataStore) (key : kind * string) : option entity :=
  match key with
  | (KType, i) => EType <$> types s !! i
  | (KValidator, i) => EValidator <$> validators s !! i
  | (KField, i) => EField <$> fields s !! i
  | (KObject, i) => EObject <$> objects s !! i
  end.

Definition store_size (s : DataStore) (k : kind) : nat :=
  match k with
  | KType => size (types s)
  | KValidator => size (validators s)
  | KField => size (fields s)
  | KObject => size (objects s)
  end.

(** The kind a raw record belongs to. *)
Definition record_kind (r : raw_record) : kind :=
  match r with
  | RawType _ => KType
  | RawValidator _ => KValidator
  | RawField _ => KField
  | RawObject _ => KObject
  end.

Section distinct.
Variable Type_new : json → result Type_.t.
Variable Validator_new : json → result Validator.t.
Variable Field_new : json → result Field.t.
Variable Object_new : json → result Object.t.

(** No id is used twice within a kind. *)
Definition distinct_ids (d : Dataset) : Prop :=
  NoDup (valid_ids Type_new (ds_types d))
  ∧ NoDup (valid_ids Validator_new (ds_validators d))
  ∧ NoDup (valid_ids Field_new (ds_fields d))
  ∧ NoDup (valid_ids Object_new (ds_objects d)).

(** The entity a record validates to. *)
Definition validate (r : raw_record) : result entity :=
  match r with
  | RawType raw => EType <$> Type_new raw
  | RawValidator raw => EValidator <$> Validator_new raw
  | RawField raw => EField <$> Field_new raw
  | RawObject raw => EObject <$> Object_new raw
  end.

(** The place a record is filed at, when it passes validation. *)
Definition record_key (r : raw_record) : option (kind * string) :=
  match validate r with
  | Ok e => Some (entity_key e)
  | Raise _ => None
  end.

End distinct.

(** The listing and the lookup of one caller agree: whatever a page holds,
    the lookup by its id returns; and whatever the lookup returns is alone
    on the page of one entity at some offset. *)
Definition listing_matches_get {A} `{Entity A} (listing : lister A)
    (get : string → option A) : Prop :=
  (∀ (L O : Z) (namespace : option string) (page : list A) (e : A),
     listing L O namespace = Ok page → e ∈ page → get (ent_id e) = Some e)
  ∧ (∀ (i : string) (e : A),
       get i = Some e → ∃ O : Z, 0 ≤ O ∧ listing 1 O None = Ok [e]).

(** A key set in which two keys carry the same identifier, one whose only
    key carries none, a header without identifier, and a reading of keys
    that tells them apart by their modulus. *)
Definition doubled_jwks : json :=
  JObj [("keys", JArr [JObj [("kid", JStr "key_1"); ("n", JStr "one")];
                       JObj [("kid", JStr "key_2"); ("n", JStr "first")];
                       JObj [("kid", JStr "key_2"); ("n", JStr "second")]])].

Definition doubled_http_get (url : string) : result json := Ok doubled_jwks.

Definition anonymous_jwks : json :=
  JObj [("keys", JArr [JObj [("kty", JStr "RSA"); ("n", JStr "anonymous")]])].

Definition anonymous_http_get (url : string) : result json := Ok anonymous_jwks.

Definition header_without_kid (token : string) : result json :=
  Ok (JObj [("alg", JStr "RS256")]).

Definition modulus_from_jwk (key : json) : result string := req_str key "n".

(** Two records of the two tenants under one id. *)
Definition clashing_dataset : Dataset :=
  {| ds_types :=
       [raw_entity "type_1" "user_test123" "acct_test123" [("python_type", JStr "str")];
        raw_entity "type_1" "user_other456" "acct_other456" [("python_type", JStr "int")]];
     ds_validators := []; ds_fields := []; ds_objects := [] |}.

(** A key source whose key set is empty, and one with a rotated key. *)
Definition empty_http_get (url : string) : result json := Ok (JObj []).

Definition rotated_jwks : json :=
  JObj [("keys", JArr [JObj [("kid", JStr "key_2"); ("kty", JStr "RSA")]])].

Definition rotated_http_get (url : string) : result json := Ok rotated_jwks.

(** ** Slicing and lookups *)

Lemma take_min_length {A} (l : list A) (n : nat) :
  take (n `min` length l) l = take n l.
Proof.
  destruct (decide (n ≤ length l)%nat) as [Hle|Hgt].
  - by rewrite Nat.min_l.
  - rewrite Nat.min_r by lia. rewrite !take_ge; [done | lia | lia].
Qed.

(** For a non-negative offset and limit a Python slice is a drop followed
    by a take. *)
Lemma py_slice_nonneg {A} (l : list A) (offset limit : Z) :
  0 ≤ offset → 0 ≤ limit →
  py_slice l offset (offset + limit) = take (Z.to_nat limit) (drop (Z.to_nat offset) l).
Proof.
  intros Ho Hl. unfold py_slice, slice_index.
  destruct (Z.ltb_spec offset 0) as [?|_]; [lia|].
  destruct (Z.ltb_spec (offset + limit) 0) as [?|_]; [lia|].
  set (len := Z.of_nat (length l)).
  destruct (decide (offset ≤ len)) as [Hin|Hout].
  - rewrite (Z.min_l offset len) by done.
    rewrite <- (take_min_length (drop (Z.to_nat offset) l) (Z.to_nat limit)).
    f_equal. rewrite length_drop. subst len. lia.
  - rewrite (Z.min_r offset len) by lia.
    rewrite (Z.min_r (offset + limit) len) by lia.
    rewrite Z.sub_diag. simpl.
    rewrite (drop_ge l (Z.to_nat offset)) by (subst len; lia).
    by rewrite take_nil.
Qed.


(** Resolving ids that are all keys of the primary map raises nothing. *)
Lemma mapM_lookup_ok {A} (primary : gmap string A) (ids : list string) :
  (∀ i, i ∈ ids → is_Some (primary !! i)) →
  ∃ ents,
    mapM (λ tid, match primary !! tid with
                 | Some o => Ok o
                 | None => Raise (KeyError tid)
                 end) ids = Ok ents
    ∧ Forall2 (λ i e, primary !! i = Some e) ids ents.
Proof.
  induction ids as [|i ids IH]; intros Hall.
  - exists []. split; [done | constructor].
  - destruct (Hall i) as [o Ho]; [left|].
    destruct IH as (ents & Hm & Hf).
    { intros j Hj. apply Hall. by right. }
    exists (o :: ents). split.
    + cbn. rewrite Ho. cbn. cbn in Hm. rewrite Hm. done.
    + by constructor.
Qed.

(** ** What loading maintains *)

Lemma index_get_append (index : gmap string (list string)) (k x k' : string) :
  index_get (index_append index k x) k'
  = if decide (k = k') then (index_get index k ++ [x])%list else index_get index k'.
Proof.
  unfold index_append, index_get at 1. rewrite lookup_insert.
  destruct (decide (k = k')); done.
Qed.

Lemma table_wf_empty {A} `{Entity A} : table_wf (∅ : gmap string A) ∅ ∅.
Proof.
  split; [|split].
  - intros k o Hk. by rewrite lookup_empty in Hk.
  - intros k i Hi. unfold index_get in Hi. rewrite lookup_empty in Hi.
    by apply elem_of_nil in Hi.
  - intros k i Hi. unfold index_get in Hi. rewrite lookup_empty in Hi.
    by apply elem_of_nil in Hi.
Qed.

Lemma index_sound_add {A} (primary : gmap string A) (index : gmap string (list string))
    (id key : string) (o : A) :
  (∀ k i, i ∈ index_get index k → is_Some (primary !! i)) →
  ∀ k i, i ∈ index_get (index_append index key id) k →
         is_Some (<[id := o]> primary !! i).
Proof.
  intros Hidx k i Hi. rewrite index_get_append in Hi.
  destruct (decide (i = id)) as [->|Hne].
  - rewrite lookup_insert_eq. eauto.
  - rewrite lookup_insert_ne by done.
    destruct (decide (key = k)) as [->|_].
    + apply elem_of_app in Hi as [Hi|Hi]; [by eapply Hidx|].
      apply list_elem_of_singleton in Hi. done.
    + by eapply Hidx.
Qed.

Lemma table_wf_add {A} `{Entity A} (primary : gmap string A)
    (by_owner by_account : gmap string (list string)) (o : A) :
  table_wf primary by_owner by_account →
  table_wf (<[ent_id o := o]> primary)
    (index_append by_owner (ent_owner_id o) (ent_id o))
    (index_append by_account (ent_account_id o) (ent_id o)).
Proof.
  intros (Hkey & Hown & Hacc). split; [|split].
  - intros k o' Hk. destruct (decide (ent_id o = k)) as [<-|Hne].
    + rewrite lookup_insert_eq in Hk. by inversion Hk.
    + rewrite lookup_insert_ne in Hk by done. by apply Hkey.
  - by apply index_sound_add.
  - by apply index_sound_add.
Qed.

Lemma store_wf_init : store_wf DataStore_init.
Proof. repeat split; apply table_wf_empty. Qed.

Lemma add_type_wf o s : store_wf s → store_wf (add_type o s).
Proof.
  intros (Ht & Hv & Hf & Ho). repeat split; try (apply Hv || apply Hf || apply Ho).
  all: apply (table_wf_add (types s) _ _ o Ht).
Qed.

Lemma add_validator_wf o s : store_wf s → store_wf (add_validator o s).
Proof.
  intros (Ht & Hv & Hf & Ho). repeat split; try (apply Ht || apply Hf || apply Ho).
  all: apply (table_wf_add (validators s) _ _ o Hv).
Qed.

Lemma add_field_wf o s : store_wf s → store_wf (add_field o s).
Proof.
  intros (Ht & Hv & Hf & Ho). repeat split; try (apply Ht || apply Hv || apply Ho).
  all: apply (table_wf_add (fields s) _ _ o Hf).
Qed.

Lemma add_object_wf o s : store_wf s → store_wf (add_object o s).
Proof.
  intros (Ht & Hv & Hf & Ho). repeat split; try (apply Ht || apply Hv || apply Hf).
  all: apply (table_wf_add (objects s) _ _ o Ho).
Qed.

Lemma load_loop_wf {A} (new : json → result A) (add : A → DataStore → DataStore)
    (raws : list json) (s : DataStore) :
  (∀ o s, store_wf s → store_wf (add o s)) →
  store_wf s → store_wf (snd (load_loop new add raws s)).
Proof.
  intros Hadd. revert s. induction raws as [|raw raws IH]; intros s Hs; [done|].
  cbn. unfold st_bind, st_lift, st_modify. destruct (new raw) as [o|e]; [|done].
  apply IH, Hadd, Hs.
Qed.

(** Sequencing keeps an invariant that each step keeps. *)
Lemma st_bind_keeps {S A B} (P : S → Prop) (m : StateM S A) (k : A → StateM S B) s :
  (∀ s, P s → P (snd (m s))) → (∀ a s, P s → P (snd (k a s))) →
  P s → P (snd (st_bind m k s)).
Proof.
  intros Hm Hk Hs. unfold st_bind. specialize (Hm s Hs).
  destruct (m s) as [[a|e] s']; [by apply Hk | done].
Qed.

Ltac keep_step :=
  apply st_bind_keeps;
  [ first [ done
          | intros; apply load_loop_wf;
            [ first [ apply add_type_wf | apply add_validator_wf
                    | apply add_field_wf | apply add_object_wf ]
            | done ] ]
  | intros ? ? ?
  | done ].

Section store_facts.
Variable Type_new : json → result Type_.t.
Variable Validator_new : json → result Validator.t.
Variable Field_new : json → result Field.t.
Variable Object_new : json → result Object.t.
Variable set_iter : list string → list string.

Abbreviation load_fixtures' := (load_fixtures Type_new Validator_new Field_new Object_new).
Abbreviation reachable' := (reachable Type_new Validator_new Field_new Object_new).

Lemma load_fixtures_wf file s :
  store_wf s → store_wf (snd (load_fixtures' file s)).
Proof.
  intros Hs. destruct file as [content|]; [|done]. unfold load_fixtures.
  do 8 keep_step.
  apply load_loop_wf; [apply add_object_wf | done].
Qed.

Lemma reachable_wf s : reachable' s → store_wf s.
Proof.
  induction 1 as [|file s _ IH]; [apply store_wf_init | by apply load_fixtures_wf].
Qed.

(** ** Scoped lookup *)

Lemma get_scoped_visible {A} `{Entity A} (primary : gmap string A) (E : A)
    (id owner account : string) :
  get_scoped primary id owner account = Some E
  ↔ primary !! id = Some E ∧ (ent_owner_id E = owner ∨ ent_account_id E = account).
Proof.
  unfold get_scoped. destruct (primary !! id) as [o|];
    [|split; [done | by intros [? _]]].
  destruct (bool_decide (ent_owner_id o = owner) || bool_decide (ent_account_id o = account))
    eqn:Hvis.
  - apply orb_prop in Hvis.
    split.
    + intros Heq. inversion Heq; subst o. split; [done|].
      destruct Hvis as [Hv|Hv]; apply bool_decide_eq_true in Hv; auto.
    + intros [Heq _]. done.
  - apply orb_false_elim in Hvis as [Ho Ha].
    apply bool_decide_eq_false in Ho, Ha.
    split; [done|]. intros [Heq Hv]. inversion Heq; subst o. by destruct Hv.
Qed.

Lemma get_scoped_absent {A} `{Entity A} (primary : gmap string A)
    (id owner account : string) :
  primary !! id = None → get_scoped primary id owner account = None.
Proof. intros Hid. unfold get_scoped. by rewrite Hid. Qed.

Lemma get_scoped_contract {A} `{Entity A} (primary : gmap string A)
    (by_owner by_account : gmap string (list string)) :
  table_wf primary by_owner by_account →
  get_contract primary (get_scoped primary).
Proof.
  intros (Hkey & _) E C [k Hk].
  assert (ent_id E = k) as Hid by (by apply Hkey). subst k.
  assert (get_scoped primary (ent_id E) (user_id C) (account_id C) = Some E
          ↔ visible E C) as Hiff.
  { rewrite get_scoped_visible. unfold visible.
    split; [by intros [_ ?] | by intros ?; split]. }
  split; [done|].
  intros Hinv.
  assert (get_scoped primary (ent_id E) (user_id C) (account_id C) = None) as Hnone.
  { destruct (get_scoped primary (ent_id E) (user_id C) (account_id C)) as [o|] eqn:Hg;
      [|done].
    apply get_scoped_visible in Hg as [Hg Hv]. rewrite Hk in Hg.
    inversion Hg; subst o. by destruct Hinv. }
  split; [done|].
  intros id' Hid'. rewrite Hnone. by apply get_scoped_absent.
Qed.

(** ** Listing *)

(** A Python set holds each inserted element once, and nothing else. *)
Hypothesis set_iter_NoDup : ∀ l, NoDup (set_iter l).
Hypothesis set_iter_elem : ∀ l i, i ∈ set_iter l ↔ i ∈ l.

Lemma truthy_JStr (ns : string) : truthy (JStr ns) = bool_decide (ns ≠ "").
Proof.
  cbn. destruct (String.eqb_spec ns "") as [->|Hne]; cbn.
  - by rewrite bool_decide_eq_false_2 by auto.
  - by rewrite bool_decide_eq_true_2.
Qed.

Lemma list_scoped_eq {A} `{Entity A} (primary : gmap string A)
    (by_owner by_account : gmap string (list string))
    (owner account : string) (limit offset : Z) (namespace : option string) :
  table_wf primary by_owner by_account →
  ∃ ents,
    Forall2 (λ i e, primary !! i = Some e)
      (set_iter (index_get by_owner owner ++ index_get by_account account)) ents
    ∧ list_scoped set_iter primary by_owner by_account owner account limit offset namespace
      = Ok (py_slice (namespace_filter namespace ents) offset (offset + limit)).
Proof.
  intros (_ & Hown & Hacc).
  destruct (mapM_lookup_ok primary
              (set_iter (index_get by_owner owner ++ index_get by_account account)))
    as (ents & Hm & Hf).
  { intros i Hi. apply set_iter_elem, elem_of_app in Hi as [Hi|Hi]; eauto. }
  exists ents. split; [done|].
  unfold list_scoped. rewrite Hm.
  destruct namespace as [ns|]; [|done].
  change (Ok ents ≫= ?f) with (f ents). cbv beta zeta.
  rewrite truthy_JStr. unfold namespace_filter. destruct (decide (ns = "")) as [->|Hne].
  - by rewrite bool_decide_eq_false_2 by auto.
  - by rewrite bool_decide_eq_true_2.
Qed.

(** One resolution of the ids serves every limit, offset and namespace. *)
Lemma list_scoped_eq_all {A} `{Entity A} (primary : gmap string A)
    (by_owner by_account : gmap string (list string)) (owner account : string) :
  table_wf primary by_owner by_account →
  ∃ ents,
    Forall2 (λ i e, primary !! i = Some e)
      (set_iter (index_get by_owner owner ++ index_get by_account account)) ents
    ∧ ∀ limit offset namespace,
        list_scoped set_iter primary by_owner by_account owner account
          limit offset namespace
        = Ok (py_slice (namespace_filter namespace ents) offset (offset + limit)).
Proof.
  intros Hwf.
  destruct (list_scoped_eq primary by_owner by_account
              owner account 0 0 None Hwf) as (ents & Hf & _).
  exists ents. split; [done|]. intros limit offset namespace.
  destruct (list_scoped_eq primary by_owner by_account
              owner account limit offset namespace Hwf) as (ents' & Hf' & ->).
  assert (ents' = ents) as ->; [|done].
  clear -Hf Hf'. revert ents' Hf'.
  induction Hf as [|i e ids ents Hi _ IH]; intros ents' Hf'.
  - by inversion Hf'.
  - inversion Hf' as [|? e' ? ents0 Hi' Hrest]; subst.
    rewrite Hi in Hi'. inversion Hi'; subst. f_equal. by apply IH.
Qed.


Lemma Forall_py_slice {A} (P : A → Prop) (l : list A) (start stop : Z) :
  Forall P l → Forall P (py_slice l start stop).
Proof. intros Hl. unfold py_slice. by apply Forall_take, Forall_drop. Qed.

(** A non-empty namespace on a kind whose namespace attribute reads as the
    empty default keeps nothing. *)
Lemma list_scoped_no_namespace {A} `{Entity A} (primary : gmap string A)
    (by_owner by_account : gmap string (list string))
    (owner account : string) (limit offset : Z) (ns : string) :
  table_wf primary by_owner by_account →
  (∀ e : A, ent_namespace e = "") →
  ns ≠ "" →
  list_scoped set_iter primary by_owner by_account owner account limit offset (Some ns)
  = Ok [].
Proof.
  intros Hwf Hempty Hns.
  destruct (list_scoped_eq primary by_owner by_account owner account
              limit offset (Some ns) Hwf) as (ents & _ & ->).
  unfold namespace_filter. rewrite decide_False by done.
  assert (filter (λ e : A, ent_namespace e = ns) ents = []) as ->.
  { induction ents as [|e ents IH]; [done|].
    rewrite filter_cons_False; [done|]. rewrite Hempty. congruence. }
  unfold py_slice. by rewrite drop_nil, take_nil.
Qed.

Lemma list_scoped_namespace {A} `{Entity A} (primary : gmap string A)
    (by_owner by_account : gmap string (list string))
    (owner account : string) (limit offset : Z) (ns : string) :
  table_wf primary by_owner by_account →
  ns ≠ "" →
  ∃ l, list_scoped set_iter primary by_owner by_account owner account
         limit offset (Some ns) = Ok l
       ∧ Forall (λ e, ent_namespace e = ns) l.
Proof.
  intros Hwf Hns.
  destruct (list_scoped_eq primary by_owner by_account owner account
              limit offset (Some ns) Hwf) as (ents & _ & ->).
  eexists. split; [done|].
  apply Forall_py_slice. unfold namespace_filter. rewrite decide_False by done.
  apply Forall_forall. intros e He. by apply list_elem_of_filter in He as [? _].
Qed.

(** C1. For every entity [E] of any of the four kinds that the store holds
    and every caller [C], [get(E.id, C)] returns [E] exactly when
    [E.owner_id == C.user_id] or [E.account_id == C.account_id]; otherwise it
    returns absence, and that absence is the very result that an id present
    in no map gets. *)
Theorem C1_get_returns_entity_iff_visible (s : DataStore) :
  reachable' s →
  get_contract (types s) (get_type s)
  ∧ get_contract (validators s) (get_validator s)
  ∧ get_contract (fields s) (get_field s)
  ∧ get_contract (objects s) (get_object s).
Proof.
  intros Hs. apply reachable_wf in Hs. destruct Hs as (Ht & Hv & Hf & Ho).
  split; [|split; [|split]].
  - exact (get_scoped_contract _ _ _ Ht).
  - exact (get_scoped_contract _ _ _ Hv).
  - exact (get_scoped_contract _ _ _ Hf).
  - exact (get_scoped_contract _ _ _ Ho).
Qed.

(** C2, amended. For every caller, a non-empty namespace argument is
    accepted without error by all four listings.  For the Type and Validator
    kinds it is compared with the empty default that stands for their
    missing namespace attribute, so the listing is the empty sequence; for
    Field and Object the listing holds only entities whose namespace is the
    argument. *)
Theorem C2_namespace_on_types_and_validators (s : DataStore) (C : UserClaims)
    (L O : Z) (ns : string) :
  reachable' s →
  ns ≠ "" →
  list_types set_iter s (user_id C) (account_id C) L O (Some ns) = Ok []
  ∧ list_validators set_iter s (user_id C) (account_id C) L O (Some ns) = Ok []
  ∧ (∃ l, list_fields set_iter s (user_id C) (account_id C) L O (Some ns) = Ok l
          ∧ Forall (λ f, Field.namespace f = ns) l)
  ∧ (∃ l, list_objects set_iter s (user_id C) (account_id C) L O (Some ns) = Ok l
          ∧ Forall (λ o, Object.namespace o = ns) l).
Proof.
  intros Hs Hns. apply reachable_wf in Hs. destruct Hs as (Ht & Hv & Hf & Ho).
  split; [|split; [|split]].
  - by apply list_scoped_no_namespace.
  - by apply list_scoped_no_namespace.
  - exact (list_scoped_namespace (fields s) _ _ _ _ L O ns Hf Hns).
  - exact (list_scoped_namespace (objects s) _ _ _ _ L O ns Ho Hns).
Qed.


(** C10. For every store, caller, limit and offset, and for each of the four
    kinds, listing with the namespace argument equal to the empty string
    returns the very sequence that listing without a namespace argument
    returns: the empty string switches the filter off, it does not select
    the entities whose namespace is empty. *)
Theorem C10_empty_namespace_is_no_namespace (s : DataStore) (C : UserClaims) (L O : Z) :
  list_types set_iter s (user_id C) (account_id C) L O (Some "")
  = list_types set_iter s (user_id C) (account_id C) L O None
  ∧ list_validators set_iter s (user_id C) (account_id C) L O (Some "")
    = list_validators set_iter s (user_id C) (account_id C) L O None
  ∧ list_fields set_iter s (user_id C) (account_id C) L O (Some "")
    = list_fields set_iter s (user_id C) (account_id C) L O None
  ∧ list_objects set_iter s (user_id C) (account_id C) L O (Some "")
    = list_objects set_iter s (user_id C) (account_id C) L O None.
Proof. repeat split. Qed.

End store_facts.

(** ** Loading, record by record *)

Section load_facts.
Variable Type_new : json → result Type_.t.
Variable Validator_new : json → result Validator.t.
Variable Field_new : json → result Field.t.
Variable Object_new : json → result Object.t.

Abbreviation ingest' := (ingest Type_new Validator_new Field_new Object_new).
Abbreviation run_records' := (run_records Type_new Validator_new Field_new Object_new).
Abbreviation ingest_all' := (ingest_all Type_new Validator_new Field_new Object_new).
Abbreviation record_error' := (record_error Type_new Validator_new Field_new Object_new).

(** One loop of [load_fixtures] is the record-by-record run over its
    sequence. *)
Lemma load_loop_run {A} (new : json → result A) (add : A → DataStore → DataStore)
    (tag : json → raw_record) (raws : list json) (rest : list raw_record) s :
  (∀ raw s, ingest' (tag raw) s = o ← new raw; Ok (add o s)) →
  st_bind (load_loop new add raws) (λ _, run_records' rest) s
  = run_records' (map tag raws ++ rest) s.
Proof.
  intros Htag. revert s. induction raws as [|raw raws IH]; intros s; [done|].
  cbn [map app run_records load_loop]. rewrite Htag.
  unfold st_bind at 1 2 3, st_lift, st_modify.
  destruct (new raw) as [o|e]; cbn; [|done].
  apply IH.
Qed.

Lemma load_loop_run_last {A} (new : json → result A) (add : A → DataStore → DataStore)
    (tag : json → raw_record) (raws : list json) s :
  (∀ raw s, ingest' (tag raw) s = o ← new raw; Ok (add o s)) →
  load_loop new add raws s = run_records' (map tag raws) s.
Proof.
  intros Htag. revert s. induction raws as [|raw raws IH]; intros s; [done|].
  cbn [map run_records load_loop]. rewrite Htag.
  unfold st_bind, st_lift, st_modify.
  destruct (new raw) as [o|e]; cbn; [|done].
  apply IH.
Qed.

Lemma st_bind_lift_ok {S A B} (a : A) (k : A → StateM S B) s :
  st_bind (st_lift (Ok a)) k s = k a s.
Proof. done. Qed.

Lemma st_bind_ext {S A B} (m : StateM S A) (k k' : A → StateM S B) s :
  (∀ a s, k a s = k' a s) → st_bind m k s = st_bind m k' s.
Proof. intros Hk. unfold st_bind. destruct (m s) as [[a|e] s']; [apply Hk | done]. Qed.

Lemma dataset_get_types d :
  json_get (dataset_json d) "types" (JArr []) ≫= json_iter = Ok (ds_types d).
Proof. done. Qed.
Lemma dataset_get_validators d :
  json_get (dataset_json d) "validators" (JArr []) ≫= json_iter = Ok (ds_validators d).
Proof. done. Qed.
Lemma dataset_get_fields d :
  json_get (dataset_json d) "fields" (JArr []) ≫= json_iter = Ok (ds_fields d).
Proof. done. Qed.
Lemma dataset_get_objects d :
  json_get (dataset_json d) "objects" (JArr []) ≫= json_iter = Ok (ds_objects d).
Proof. done. Qed.

Lemma load_objects_run d s :
  (l <~ st_lift (json_get (dataset_json d) "objects" (JArr []) ≫= json_iter) ;;
   load_loop Object_new add_object l)%state s
  = run_records' (map RawObject (ds_objects d)) s.
Proof.
  rewrite dataset_get_objects, st_bind_lift_ok.
  by apply load_loop_run_last.
Qed.

Lemma load_fields_run d s :
  (l <~ st_lift (json_get (dataset_json d) "fields" (JArr []) ≫= json_iter) ;;
   load_loop Field_new add_field l ;;;
   l <~ st_lift (json_get (dataset_json d) "objects" (JArr []) ≫= json_iter) ;;
   load_loop Object_new add_object l)%state s
  = run_records' (map RawField (ds_fields d) ++ map RawObject (ds_objects d)) s.
Proof.
  rewrite dataset_get_fields, st_bind_lift_ok.
  etrans; [apply st_bind_ext; intros ? ?; apply load_objects_run|].
  by apply load_loop_run.
Qed.

Lemma load_validators_run d s :
  (l <~ st_lift (json_get (dataset_json d) "validators" (JArr []) ≫= json_iter) ;;
   load_loop Validator_new add_validator l ;;;
   l <~ st_lift (json_get (dataset_json d) "fields" (JArr []) ≫= json_iter) ;;
   load_loop Field_new add_field l ;;;
   l <~ st_lift (json_get (dataset_json d) "objects" (JArr []) ≫= json_iter) ;;
   load_loop Object_new add_object l)%state s
  = run_records' (map RawValidator (ds_validators d)
                  ++ map RawField (ds_fields d) ++ map RawObject (ds_objects d)) s.
Proof.
  rewrite dataset_get_validators, st_bind_lift_ok.
  etrans; [apply st_bind_ext; intros ? ?; apply load_fields_run|].
  by apply load_loop_run.
Qed.

(** On a dataset, [load_fixtures] is the record-by-record run. *)
Lemma load_fixtures_run (d : Dataset) (s : DataStore) :
  load_fixtures Type_new Validator_new Field_new Object_new (dataset_file d) s
  = run_records' (dataset_records d) s.
Proof.
  unfold dataset_records, load_fixtures, dataset_file.
  rewrite st_bind_lift_ok, dataset_get_types, st_bind_lift_ok.
  etrans; [apply st_bind_ext; intros ? ?; apply load_validators_run|].
  by apply load_loop_run.
Qed.

(** A record's validity does not depend on the store it is filed in. *)
Lemma ingest_error r s :
  match record_error' r with
  | None => ∃ s', ingest' r s = Ok s'
  | Some e => ingest' r s = Raise e
  end.
Proof.
  unfold record_error.
  destruct r as [raw|raw|raw|raw]; cbn;
    [destruct (Type_new raw) | destruct (Validator_new raw)
    | destruct (Field_new raw) | destruct (Object_new raw)]; cbn; eauto.
Qed.

(** The run stops at the first malformed record, with the records before it
    filed and nothing else. *)
Lemma run_records_first_error (pre post : list raw_record) (bad : raw_record) e s :
  Forall (well_formed Type_new Validator_new Field_new Object_new) pre →
  record_error' bad = Some e →
  run_records' (pre ++ bad :: post) s = (Raise e, ingest_all' pre s).
Proof.
  intros Hpre Hbad. revert s. induction Hpre as [|r pre Hr _ IH]; intros s.
  - cbn. pose proof (ingest_error bad s) as Hi. rewrite Hbad in Hi. by rewrite Hi.
  - cbn. pose proof (ingest_error r s) as Hi. unfold well_formed in Hr.
    rewrite Hr in Hi. destruct Hi as [s' Hi]. rewrite Hi. apply IH.
Qed.

Lemma run_records_all_ok (rs : list raw_record) s :
  Forall (well_formed Type_new Validator_new Field_new Object_new) rs →
  run_records' rs s = (Ok tt, ingest_all' rs s).
Proof.
  intros Hrs. revert s. induction Hrs as [|r rs Hr _ IH]; intros s; [done|].
  cbn. pose proof (ingest_error r s) as Hi. unfold well_formed in Hr.
  rewrite Hr in Hi. destruct Hi as [s' Hi]. rewrite Hi. apply IH.
Qed.

Lemma first_malformed (rs : list raw_record) :
  (∃ r, r ∈ rs ∧ malformed Type_new Validator_new Field_new Object_new r) →
  ∃ pre bad post e,
    rs = (pre ++ bad :: post)%list
    ∧ Forall (well_formed Type_new Validator_new Field_new Object_new) pre
    ∧ record_error' bad = Some e.
Proof.
  induction rs as [|r rs IH]; intros (r0 & Hin & Hbad).
  - by apply elem_of_nil in Hin.
  - destruct (record_error' r) as [e|] eqn:Hr.
    + exists [], r, rs, e. by repeat split.
    + destruct IH as (pre & bad & post & e & -> & Hpre & He).
      { exists r0. split; [|done]. apply elem_of_cons in Hin as [->|Hin]; [|done].
        destruct Hbad as [e He]. congruence. }
      exists (r :: pre), bad, post, e. repeat split; [|done].
      constructor; done.
Qed.

(** C9, amended. A dataset with at least one malformed record is not loaded
    silently: the load raises the validation error of the first malformed
    record, in the order types, validators, fields, objects.  The records
    that precede it have been filed in the store and its indexes by then and
    stay there; the malformed record and the records after it are not
    filed. *)
Theorem C9_load_fails_at_first_malformed_record (d : Dataset) (s : DataStore) :
  (∃ r, r ∈ dataset_records d
        ∧ malformed Type_new Validator_new Field_new Object_new r) →
  ∃ pre bad post e,
    dataset_records d = (pre ++ bad :: post)%list
    ∧ Forall (well_formed Type_new Validator_new Field_new Object_new) pre
    ∧ record_error' bad = Some e
    ∧ load_fixtures Type_new Validator_new Field_new Object_new (dataset_file d) s
      = (Raise e, ingest_all' pre s).
Proof.
  intros Hbad. apply first_malformed in Hbad as (pre & bad & post & e & Hd & Hpre & He).
  exists pre, bad, post, e. repeat split; try done.
  rewrite load_fixtures_run, Hd. by apply run_records_first_error.
Qed.

End load_facts.

(** ** Token verification *)

Lemma prefix_append (s t : string) : String.prefix s (s +:+ t) = true.
Proof.
  induction s as [|a s IH]; [by destruct t|].
  change (String a s +:+ t) with (String a (s +:+ t)). cbn [String.prefix].
  destruct (Ascii.ascii_dec a a); [exact IH | congruence].
Qed.

(** Bypass mode is entered only through the [REQUIRE_AUTH] variable: the
    flag of a configuration reads "false" exactly when that variable, lower
    cased, is not "true". *)
Lemma get_clerk_config_bypass (env : Environ) (cfg : Config) :
  get_clerk_config env = Ok cfg →
  require_auth cfg = "false" ↔ lower (default "true" (REQUIRE_AUTH env)) ≠ "true".
Proof.
  unfold get_clerk_config.
  destruct (String.eqb_spec (lower (default "true" (REQUIRE_AUTH env))) "true") as [Heq|Hne].
  - destruct (_ && _); intros Hcfg; inversion Hcfg; subst cfg; cbn.
    split; [discriminate | by intros []].
  - cbn. intros Hcfg; inversion Hcfg; subst cfg; cbn. done.
Qed.

Section auth_facts.
Variable config : Config.
Variable current_time : Z.
Variable http_get_json : string → result json.
Variable get_unverified_header : string → result json.
Variable Key : Type.
Variable from_jwk : json → result Key.
Variable jwt_decode : string → Key → string → result json.

Abbreviation fetch_jwks' := (fetch_jwks config current_time http_get_json).
Abbreviation get_signing_key' :=
  (get_signing_key config current_time http_get_json get_unverified_header Key from_jwk).
Abbreviation verify_token' :=
  (verify_token config current_time http_get_json get_unverified_header
     Key from_jwk jwt_decode).
Abbreviation get_current_user' :=
  (get_current_user config current_time http_get_json get_unverified_header
     Key from_jwk jwt_decode).

(** C4. When the Key Cache attempts a fetch (the cache is empty or one hour
    has passed since it was filled, and a key-set URL is configured) and the
    remote fetch fails, the call fails with [KeySourceUnavailable], whatever
    key set the cache still holds: the stale set is not returned. *)
Theorem C4_failed_refresh_is_not_served_from_cache (c : KeyCache) (e : exn) :
  truthy (_jwks_cache c) = false ∨ JWKS_CACHE_TTL ≤ current_time - _jwks_cache_time c →
  jwks_url config ≠ "" →
  http_get_json (jwks_url config) = Raise e →
  fetch_jwks' c
  = (Raise (HTTPException 503 ("Failed to fetch JWKS: " +:+ str_exn e)), c)
  ∧ result_kind (fst (fetch_jwks' c)) = Some KeySourceUnavailable.
Proof.
  intros Hstale Hurl Hfetch.
  assert (fetch_jwks' c
          = (Raise (HTTPException 503 ("Failed to fetch JWKS: " +:+ str_exn e)), c)) as Heq.
  { unfold fetch_jwks.
    assert (truthy (_jwks_cache c)
            && (current_time - _jwks_cache_time c <? JWKS_CACHE_TTL) = false) as ->.
    { destruct Hstale as [->|Hold]; [done|].
      apply andb_false_intro2. by apply Z.ltb_ge. }
    rewrite truthy_JStr, bool_decide_eq_true_2 by done. cbn [negb].
    by rewrite Hfetch. }
  split; [done|]. rewrite Heq. cbn [fst result_kind].
  unfold error_kind. by rewrite prefix_append.
Qed.

(** C5. In bypass mode (the require-authentication flag is false) the
    verifier returns the fixed test identity, user [user_test123], account
    [acct_test123], email [test@example.com], for every credential string,
    the empty one included; the credential, the key cache and the network
    are not consulted, and the cache is left as it was. *)
Theorem C5_bypass_returns_the_test_identity (token : string) (c : KeyCache) :
  require_auth config = "false" →
  get_current_user' token c
  = (Ok {| user_id := "user_test123";
           account_id := "acct_test123";
           email := Some "test@example.com" |}, c)
  ∧ verify_token' token c
    = (Ok (JObj [("sub", JStr "user_test123");
                 ("org_id", JStr "acct_test123");
                 ("email", JStr "test@example.com")]), c).
Proof.
  intros Hoff. unfold get_current_user, verify_token. rewrite Hoff. done.
Qed.

(** C7, amended. For every credential whose header fails to parse,
    [get_signing_key] fails with [MalformedCredential] (401, "Invalid token
    header: ...") before any key is looked up or any signature verified,
    provided the Key Cache has handed it a non-empty key set.  The key set is
    obtained before the header is parsed: when the fetch fails that failure
    is raised, and when the key set is empty "JWKS not available" is raised,
    in both cases without parsing the header. *)
Theorem C7_header_parse_failure_after_key_set (token : string) (c : KeyCache) (e : exn) :
  get_unverified_header token = Raise e →
  match fetch_jwks' c with
  | (Raise e', c') => get_signing_key' token c = (Raise e', c')
  | (Ok jwks, c') =>
      if truthy jwks
      then get_signing_key' token c
           = (Raise (HTTPException 401 ("Invalid token header: " +:+ str_exn e)), c')
           ∧ result_kind (fst (get_signing_key' token c)) = Some MalformedCredential
      else get_signing_key' token c
           = (Raise (HTTPException 500 "JWKS not available"), c')
  end.
Proof.
  intros Hhdr. unfold get_signing_key, st_bind.
  destruct (fetch_jwks' c) as [[jwks|e'] c']; [|done].
  unfold st_lift. destruct (truthy jwks); cbn [negb]; [|done].
  rewrite Hhdr. cbn [mbind result_bind fst result_kind].
  split; [done|]. unfold error_kind. by rewrite prefix_append.
Qed.

(** A key set in which no key carries the identifier has no signing key. *)
Lemma find_signing_key_no_match (keys : list json) (kid : json) :
  Forall (λ key, ∃ k, json_get key "kid" JNull = Ok k ∧ py_eq k kid = false) keys →
  find_signing_key Key from_jwk keys kid = Ok None.
Proof.
  induction 1 as [|key keys (k & Hk & Hne) _ IH]; [done|].
  cbn [find_signing_key]. rewrite Hk. cbn [mbind result_bind]. by rewrite Hne.
Qed.

(** What [get_signing_key] raises when no key matches. *)
Lemma get_signing_key_missing (token : string) (c c' : KeyCache)
    (jwks header kid : json) (keys : list json) :
  fetch_jwks' c = (Ok jwks, c') →
  truthy jwks = true →
  get_unverified_header token = Ok header →
  json_get header "kid" JNull = Ok kid →
  json_get jwks "keys" (JArr []) ≫= json_iter = Ok keys →
  Forall (λ key, ∃ k, json_get key "kid" JNull = Ok k ∧ py_eq k kid = false) keys →
  get_signing_key' token c = (Raise (HTTPException 401 "Unable to find signing key"), c')
  ∧ result_kind (fst (get_signing_key' token c)) = Some MissingSigningKey.
Proof.
  intros Hfetch Htruthy Hhdr Hkid Hkeys Hnone.
  assert (get_signing_key' token c
          = (Raise (HTTPException 401 "Unable to find signing key"), c')) as Heq.
  { unfold get_signing_key, st_bind. rewrite Hfetch. unfold st_lift.
    rewrite Htruthy. cbn [negb]. rewrite Hhdr. cbn [mbind result_bind].
    rewrite Hkid. cbn [mbind result_bind].
    destruct (json_get jwks "keys" (JArr [])) as [ks|?]; [|done].
    cbn [mbind result_bind] in Hkeys |- *. rewrite Hkeys. cbn [mbind result_bind].
    by rewrite find_signing_key_no_match. }
  split; [done|]. by rewrite Heq.
Qed.

(** Every exception raised under the [try] of [verify_token] leaves it
    through the [except] clauses. *)
Lemma verify_token_reraises (token : string) (c c' : KeyCache) (e : exn) :
  require_auth config ≠ "false" →
  get_signing_key' token c = (Raise e, c') →
  verify_token' token c = (Raise (verify_token_handler e), c').
Proof.
  intros Hon Hkey. unfold verify_token.
  destruct (String.eqb_spec (require_auth config) "false") as [?|_]; [done|].
  unfold st_reraise, st_bind. by rewrite Hkey.
Qed.

Lemma verify_token_decode (token : string) (c c' : KeyCache) (key : Key) :
  require_auth config ≠ "false" →
  get_signing_key' token c = (Ok key, c') →
  verify_token' token c
  = (match jwt_decode token key (issuer config) with
     | Ok payload => Ok payload
     | Raise e => Raise (verify_token_handler e)
     end, c').
Proof.
  intros Hon Hkey. unfold verify_token.
  destruct (String.eqb_spec (require_auth config) "false") as [?|_]; [done|].
  unfold st_reraise, st_bind. rewrite Hkey. unfold st_lift.
  by destruct (jwt_decode token key (issuer config)).
Qed.

(** An expired credential and a credential of another issuer, as PyJWT
    reports them, leave [verify_token] as the kinds of those names. *)
Lemma verify_token_expired_or_wrong_issuer (token : string) (c c' : KeyCache)
    (key : Key) (msg : string) :
  require_auth config ≠ "false" →
  get_signing_key' token c = (Ok key, c') →
  (jwt_decode token key (issuer config) = Raise (ExpiredSignatureError msg) →
   verify_token' token c = (Raise (HTTPException 401 "Token has expired"), c')
   ∧ result_kind (fst (verify_token' token c)) = Some ExpiredCredential)
  ∧ (jwt_decode token key (issuer config) = Raise (InvalidIssuerError msg) →
     verify_token' token c = (Raise (HTTPException 401 "Invalid token issuer"), c')
     ∧ result_kind (fst (verify_token' token c)) = Some InvalidIssuer).
Proof.
  intros Hon Hkey.
  split; intros Hdec; rewrite (verify_token_decode token c c' key Hon Hkey), Hdec; done.
Qed.

(** The exception [get_signing_key] raises for a missing key is not one of
    the PyJWT classes, so it reaches the last [except] clause. *)
Lemma verify_token_missing_key (token : string) (c c' : KeyCache) :
  require_auth config ≠ "false" →
  get_signing_key' token c = (Raise (HTTPException 401 "Unable to find signing key"), c') →
  verify_token' token c
  = (Raise (HTTPException 401
              "Authentication failed: 401: Unable to find signing key"), c')
  ∧ result_kind (fst (verify_token' token c)) = Some AuthenticationFailed.
Proof.
  intros Hon Hkey. rewrite (verify_token_reraises token c c' _ Hon Hkey). done.
Qed.

End auth_facts.

Lemma json_get_obj (kv : list (string * json)) (k : string) :
  json_get (JObj kv) k JNull = Ok (claim kv k).
Proof. done. Qed.

Lemma claim_str (kv : list (string * json)) (k s : string) :
  claim kv k = JStr s → assoc_get k kv = Some (JStr s).
Proof. unfold claim. destruct (assoc_get k kv); cbn; congruence. Qed.

Lemma claim_truthy_present (kv : list (string * json)) (k : string) :
  truthy (claim kv k) = true → assoc_get k kv ≠ None.
Proof. unfold claim. by destruct (assoc_get k kv). Qed.

(** C6, amended. For every verified claims payload from which an identity
    is produced: [user_id] is the subject claim; [account_id] is the
    organization claim when that claim is present and truthy (neither null
    nor the empty string), and the subject claim otherwise; [email] is the
    email claim when present and null otherwise.  When the subject claim is
    missing no identity is produced: the call fails with the authentication
    error "Invalid token claims: missing user_id". *)
Theorem C6_identity_from_claims (kv : list (string * json)) :
  match extract_user_claims (JObj kv) with
  | Ok u =>
      assoc_get "sub" kv = Some (JStr (user_id u))
      ∧ JStr (account_id u)
        = (if truthy (claim kv "org_id") then claim kv "org_id" else claim kv "sub")
      ∧ claim kv "email" = email_json u
  | Raise e =>
      assoc_get "sub" kv = None →
      e = HTTPException 401 "Invalid token claims: missing user_id"
      ∧ error_kind e = Some AuthenticationFailed
  end.
Proof.
  unfold extract_user_claims. rewrite !json_get_obj. cbn [mbind result_bind].
  destruct (truthy (claim kv "org_id")) eqn:Horg; cbn [mbind result_bind];
    rewrite ?json_get_obj; cbn [mbind result_bind];
    (destruct (truthy (claim kv "sub")) eqn:Hsub; cbn [negb];
     [| intros _; split; reflexivity]).
  - pose proof (claim_truthy_present _ _ Hsub) as Hpresent.
    destruct (claim kv "sub") as [| | |s| |] eqn:Hs; try (cbn; tauto).
    apply claim_str in Hs.
    destruct (claim kv "org_id") as [| | |a| |]; try (cbn; tauto).
    unfold UserClaims_new.
    destruct (claim kv "email") as [| | |m| |]; try (cbn; tauto); cbn; auto.
  - pose proof (claim_truthy_present _ _ Hsub) as Hpresent.
    destruct (claim kv "sub") as [| | |s| |] eqn:Hs; try (cbn; tauto).
    apply claim_str in Hs.
    unfold UserClaims_new.
    destruct (claim kv "email") as [| | |m| |]; try (cbn; tauto); cbn; auto.
Qed.

(** ** The properties on the sample data *)

Lemma sample_set_iter_NoDup (l : list string) : NoDup (sample_set_iter l).
Proof. apply NoDup_remove_dups. Qed.

Lemma sample_set_iter_elem (l : list string) (i : string) :
  i ∈ sample_set_iter l ↔ i ∈ l.
Proof. apply elem_of_remove_dups. Qed.

Lemma sample_store_reachable :
  reachable sample_Type_new sample_Validator_new sample_Field_new sample_Object_new
    sample_store.
Proof. apply reachable_load, reachable_init. Qed.

(** C1 on the sample store. *)
Lemma C1_sample_store :
  reachable sample_Type_new sample_Validator_new sample_Field_new sample_Object_new
    sample_store
  ∧ get_contract (types sample_store) (get_type sample_store)
  ∧ get_contract (validators sample_store) (get_validator sample_store)
  ∧ get_contract (fields sample_store) (get_field sample_store)
  ∧ get_contract (objects sample_store) (get_object sample_store).
Proof.
  split; [exact sample_store_reachable|].
  exact (C1_get_returns_entity_iff_visible sample_Type_new sample_Validator_new
           sample_Field_new sample_Object_new sample_store sample_store_reachable).
Defined.

(** C2 as the design document has it fails on the sample store: the test
    user sees two types, and none once a namespace is given. *)
Lemma C2_namespace_empties_type_listing :
  (length <$> list_types sample_set_iter sample_store
                "user_test123" "acct_test123" 100 0 None) = Ok 2%nat
  ∧ list_types sample_set_iter sample_store
      "user_test123" "acct_test123" 100 0 (Some "user") = Ok []
  ∧ (length <$> list_validators sample_set_iter sample_store
                  "user_test123" "acct_test123" 100 0 None) = Ok 1%nat
  ∧ list_validators sample_set_iter sample_store
      "user_test123" "acct_test123" 100 0 (Some "user") = Ok [].
Proof. vm_compute. done. Qed.

(** C2, amended, on the sample store. *)
Lemma C2_sample_store :
  reachable sample_Type_new sample_Validator_new sample_Field_new sample_Object_new
    sample_store
  ∧ "user" ≠ ""
  ∧ list_types sample_set_iter sample_store
      (user_id test_user) (account_id test_user) 100 0 (Some "user") = Ok []
  ∧ list_validators sample_set_iter sample_store
      (user_id test_user) (account_id test_user) 100 0 (Some "user") = Ok []
  ∧ (∃ l, list_fields sample_set_iter sample_store
            (user_id test_user) (account_id test_user) 100 0 (Some "user") = Ok l
          ∧ Forall (λ f, Field.namespace f = "user") l)
  ∧ (∃ l, list_objects sample_set_iter sample_store
            (user_id test_user) (account_id test_user) 100 0 (Some "user") = Ok l
          ∧ Forall (λ o, Object.namespace o = "user") l).
Proof.
  split; [exact sample_store_reachable|].
  assert ("user" ≠ "") as Hns by discriminate.
  split; [exact Hns|].
  exact (C2_namespace_on_types_and_validators sample_Type_new sample_Validator_new
           sample_Field_new sample_Object_new sample_set_iter sample_set_iter_elem
           sample_store test_user 100 0 "user" sample_store_reachable Hns).
Defined.


(** C9 as the design document has it fails on the broken dataset: the load
    raises at the second type record, and the first one stays in a store
    that was empty before. *)
Lemma C9_failed_load_leaves_records :
  fst (sample_load broken_dataset DataStore_init)
  = Raise (ValidationError "python_type: Input should be a valid string")
  ∧ (Type_.name <$> types (snd (sample_load broken_dataset DataStore_init)) !! "type_1")
    = Some "type_1"
  ∧ index_get (types_by_owner (snd (sample_load broken_dataset DataStore_init)))
      "user_test123" = ["type_1"]
  ∧ (Type_.name <$> types DataStore_init !! "type_1") = None
  ∧ (Type_.name <$> get_type (snd (sample_load broken_dataset DataStore_init))
                      "type_1" "user_test123" "acct_test123") = Some "type_1".
Proof. vm_compute. done. Qed.

Lemma broken_dataset_malformed :
  ∃ r, r ∈ dataset_records broken_dataset
       ∧ malformed sample_Type_new sample_Validator_new sample_Field_new
           sample_Object_new r.
Proof.
  exists (RawType (raw_entity "type_2" "user_test123" "acct_test123" [])).
  split; [right; left|]. vm_compute. eauto.
Qed.

(** C9, amended, on the broken dataset. *)
Lemma C9_broken_dataset :
  (∃ r, r ∈ dataset_records broken_dataset
        ∧ malformed sample_Type_new sample_Validator_new sample_Field_new
            sample_Object_new r)
  ∧ ∃ pre bad post e,
      dataset_records broken_dataset = (pre ++ bad :: post)%list
      ∧ Forall (well_formed sample_Type_new sample_Validator_new sample_Field_new
                  sample_Object_new) pre
      ∧ record_error sample_Type_new sample_Validator_new sample_Field_new
          sample_Object_new bad = Some e
      ∧ sample_load broken_dataset DataStore_init
        = (Raise e, ingest_all sample_Type_new sample_Validator_new sample_Field_new
                      sample_Object_new pre DataStore_init).
Proof.
  split; [exact broken_dataset_malformed|].
  exact (C9_load_fails_at_first_malformed_record sample_Type_new sample_Validator_new
           sample_Field_new sample_Object_new broken_dataset DataStore_init
           broken_dataset_malformed).
Defined.

(** C4 on a cache filled at time 0 and asked again at time 4000 while the
    key source is down. *)
Lemma C4_stale_cache_and_source_down :
  (truthy (_jwks_cache filled_cache) = false
   ∨ JWKS_CACHE_TTL ≤ 4000 - _jwks_cache_time filled_cache)
  ∧ jwks_url sample_config ≠ ""
  ∧ failing_http_get (jwks_url sample_config) = Raise (PyError "ConnectTimeout")
  ∧ fetch_jwks sample_config 4000 failing_http_get filled_cache
    = (Raise (HTTPException 503 ("Failed to fetch JWKS: "
                                 +:+ str_exn (PyError "ConnectTimeout"))), filled_cache)
  ∧ result_kind (fst (fetch_jwks sample_config 4000 failing_http_get filled_cache))
    = Some KeySourceUnavailable.
Proof.
  assert (truthy (_jwks_cache filled_cache) = false
          ∨ JWKS_CACHE_TTL ≤ 4000 - _jwks_cache_time filled_cache) as Hstale.
  { right. vm_compute. discriminate. }
  assert (jwks_url sample_config ≠ "") as Hurl by discriminate.
  split; [exact Hstale|]. split; [exact Hurl|]. split; [reflexivity|].
  exact (C4_failed_refresh_is_not_served_from_cache sample_config 4000 failing_http_get
           filled_cache (PyError "ConnectTimeout") Hstale Hurl eq_refl).
Defined.

(** C5 on the empty credential. *)
Lemma C5_empty_credential :
  require_auth bypass_config = "false"
  ∧ get_current_user bypass_config 0 failing_http_get sample_get_unverified_header
      string sample_from_jwk sample_jwt_decode "" KeyCache_init
    = (Ok {| user_id := "user_test123";
             account_id := "acct_test123";
             email := Some "test@example.com" |}, KeyCache_init)
  ∧ verify_token bypass_config 0 failing_http_get sample_get_unverified_header
      string sample_from_jwk sample_jwt_decode "" KeyCache_init
    = (Ok (JObj [("sub", JStr "user_test123");
                 ("org_id", JStr "acct_test123");
                 ("email", JStr "test@example.com")]), KeyCache_init).
Proof.
  split; [reflexivity|].
  exact (C5_bypass_returns_the_test_identity bypass_config 0 failing_http_get
           sample_get_unverified_header string sample_from_jwk sample_jwt_decode
           "" KeyCache_init eq_refl).
Defined.

(** C6 as the design document has it fails on an organization claim that is
    present and empty: the account is the subject, not the claim. *)
Lemma C6_empty_organization_claim :
  assoc_get "org_id" [("sub", JStr "user_1"); ("org_id", JStr "")] = Some (JStr "")
  ∧ extract_user_claims (JObj [("sub", JStr "user_1"); ("org_id", JStr "")])
    = Ok {| user_id := "user_1"; account_id := "user_1"; email := None |}
  ∧ JStr "user_1" ≠ JStr "".
Proof. repeat split. discriminate. Qed.

(** C7 as the design document has it fails when the key source is down:
    the credential's header does not parse, and the failure reported is
    that of the fetch, by [get_signing_key] and by [verify_token]. *)
Lemma C7_unparsable_header_and_source_down :
  sample_get_unverified_header "garbage" = Raise (InvalidTokenError "Not enough segments")
  ∧ fst (get_signing_key sample_config 100 failing_http_get sample_get_unverified_header
           string sample_from_jwk "garbage" KeyCache_init)
    = Raise (HTTPException 503 "Failed to fetch JWKS: ConnectTimeout")
  ∧ fst (verify_token sample_config 100 failing_http_get sample_get_unverified_header
           string sample_from_jwk sample_jwt_decode "garbage" KeyCache_init)
    = Raise (HTTPException 401
               "Authentication failed: 503: Failed to fetch JWKS: ConnectTimeout")
  ∧ result_kind
      (fst (verify_token sample_config 100 failing_http_get sample_get_unverified_header
              string sample_from_jwk sample_jwt_decode "garbage" KeyCache_init))
    = Some AuthenticationFailed
  ∧ Some AuthenticationFailed ≠ Some MalformedCredential.
Proof. vm_compute. repeat split. discriminate. Qed.

(** C7, amended, on an unparsable credential and a key source that answers. *)
Lemma C7_unparsable_header_sample :
  sample_get_unverified_header "garbage" = Raise (InvalidTokenError "Not enough segments")
  ∧ get_signing_key sample_config 100 sample_http_get sample_get_unverified_header
      string sample_from_jwk "garbage" KeyCache_init
    = (Raise (HTTPException 401 "Invalid token header: Not enough segments"),
       {| _jwks_cache := sample_jwks; _jwks_cache_time := 100 |})
  ∧ result_kind
      (fst (get_signing_key sample_config 100 sample_http_get
              sample_get_unverified_header string sample_from_jwk
              "garbage" KeyCache_init))
    = Some MalformedCredential.
Proof.
  split; [reflexivity|].
  exact (C7_header_parse_failure_after_key_set sample_config 100 sample_http_get
           sample_get_unverified_header string sample_from_jwk "garbage" KeyCache_init
           (InvalidTokenError "Not enough segments") eq_refl).
Defined.

(** C8. In verification-required mode a credential whose key identifier
    matches no entry of the key set should fail with [MissingSigningKey].
    [get_signing_key] raises exactly that, but the [try] of [verify_token]
    catches it in its last clause and raises "Authentication failed: ..."
    in its place: on the sample key set, the credential of key [key_9]
    leaves [verify_token] as [AuthenticationFailed]. *)
Theorem C8_missing_key_leaves_verify_token_as_authentication_failed :
  fst (get_signing_key sample_config 100 sample_http_get sample_get_unverified_header
         string sample_from_jwk "key_9" KeyCache_init)
  = Raise (HTTPException 401 "Unable to find signing key")
  ∧ result_kind
      (fst (get_signing_key sample_config 100 sample_http_get
              sample_get_unverified_header string sample_from_jwk
              "key_9" KeyCache_init))
    = Some MissingSigningKey
  ∧ fst (verify_token sample_config 100 sample_http_get sample_get_unverified_header
           string sample_from_jwk sample_jwt_decode "key_9" KeyCache_init)
    = Raise (HTTPException 401 "Authentication failed: 401: Unable to find signing key")
  ∧ result_kind
      (fst (verify_token sample_config 100 sample_http_get sample_get_unverified_header
              string sample_from_jwk sample_jwt_decode "key_9" KeyCache_init))
    = Some AuthenticationFailed.
Proof. vm_compute. repeat split. Qed.

(** ** The key cache over two calls *)

(** X1. Once a call has fetched a non-empty key set, every call made less
    than one hour later returns that same key set and leaves the cache as it
    is, whatever the key source would answer by then: the source is not
    consulted. *)
Theorem X1_second_call_within_ttl_is_served_from_cache
    (config : Config) (t1 t2 : Z) (http1 http2 : string → result json)
    (c : KeyCache) (body : json) :
  truthy (_jwks_cache c) && (t1 - _jwks_cache_time c <? JWKS_CACHE_TTL) = false →
  jwks_url config ≠ "" →
  http1 (jwks_url config) = Ok body →
  truthy body = true →
  t2 - t1 < JWKS_CACHE_TTL →
  fetch_jwks config t1 http1 c
  = (Ok body, {| _jwks_cache := body; _jwks_cache_time := t1 |})
  ∧ fetch_jwks config t2 http2 {| _jwks_cache := body; _jwks_cache_time := t1 |}
    = (Ok body, {| _jwks_cache := body; _jwks_cache_time := t1 |}).
Proof.
  intros Hstale Hurl Hfetch Hbody Hsoon. split.
  - unfold fetch_jwks. rewrite Hstale.
    rewrite truthy_JStr, bool_decide_eq_true_2 by done. cbn [negb].
    by rewrite Hfetch.
  - unfold fetch_jwks. cbn [_jwks_cache _jwks_cache_time]. rewrite Hbody.
    by rewrite (proj2 (Z.ltb_lt _ _) Hsoon).
Qed.

Lemma fetch_jwks_stale
    (config : Config) (t : Z) (http : string → result json) (c : KeyCache) :
  truthy (_jwks_cache c) = false ∨ JWKS_CACHE_TTL ≤ t - _jwks_cache_time c →
  jwks_url config ≠ "" →
  fetch_jwks config t http c
  = match http (jwks_url config) with
    | Ok body => (Ok body, {| _jwks_cache := body; _jwks_cache_time := t |})
    | Raise e => (Raise (HTTPException 503 ("Failed to fetch JWKS: " +:+ str_exn e)), c)
    end.
Proof.
  intros Hstale Hurl. unfold fetch_jwks.
  assert (truthy (_jwks_cache c) && (t - _jwks_cache_time c <? JWKS_CACHE_TTL) = false)
    as ->.
  { destruct Hstale as [->|Hold]; [done|].
    apply andb_false_intro2. by apply Z.ltb_ge. }
  rewrite truthy_JStr, bool_decide_eq_true_2 by done. cbn [negb].
  by destruct (http (jwks_url config)).
Qed.

(** X2. A key set that a call has fetched is not served by a later call
    that comes one hour or more after it, nor, however soon, when the key
    set fetched is empty (an empty key set is never fresh): the later call
    asks the key source again, returns and caches its answer with the time
    of that call, or raises 503 and keeps the cache when the source fails. *)
Theorem X2_later_call_asks_the_source_again
    (config : Config) (t1 t2 : Z) (http1 http2 : string → result json)
    (c : KeyCache) (body : json) :
  truthy (_jwks_cache c) = false ∨ JWKS_CACHE_TTL ≤ t1 - _jwks_cache_time c →
  jwks_url config ≠ "" →
  http1 (jwks_url config) = Ok body →
  truthy body = false ∨ JWKS_CACHE_TTL ≤ t2 - t1 →
  fetch_jwks config t1 http1 c
  = (Ok body, {| _jwks_cache := body; _jwks_cache_time := t1 |})
  ∧ fetch_jwks config t2 http2 {| _jwks_cache := body; _jwks_cache_time := t1 |}
    = match http2 (jwks_url config) with
      | Ok body2 => (Ok body2, {| _jwks_cache := body2; _jwks_cache_time := t2 |})
      | Raise e =>
          (Raise (HTTPException 503 ("Failed to fetch JWKS: " +:+ str_exn e)),
           {| _jwks_cache := body; _jwks_cache_time := t1 |})
      end.
Proof.
  intros Hstale Hurl Hfetch Hagain. split.
  - by rewrite (fetch_jwks_stale config t1 http1 c Hstale Hurl), Hfetch.
  - by apply fetch_jwks_stale.
Qed.

(** X3. [get_clerk_config] reads [REQUIRE_AUTH] without regard to case and
    takes it as "true" when unset; any other text switches authentication
    off.  It raises exactly when authentication is required and the key-set
    URL or the issuer is unset or empty; otherwise the flag is "true" or
    "false", and the URL and issuer are the variables' texts, empty when
    unset. *)
Theorem X3_get_clerk_config_cases (env : Environ) :
  match get_clerk_config env with
  | Ok cfg =>
      jwks_url cfg = default "" (CLERK_JWKS_URL env)
      ∧ issuer cfg = default "" (CLERK_ISSUER env)
      ∧ (lower (default "true" (REQUIRE_AUTH env)) = "true" →
         require_auth cfg = "true" ∧ jwks_url cfg ≠ "" ∧ issuer cfg ≠ "")
      ∧ (lower (default "true" (REQUIRE_AUTH env)) ≠ "true" →
         require_auth cfg = "false")
  | Raise _ =>
      lower (default "true" (REQUIRE_AUTH env)) = "true"
      ∧ (default "" (CLERK_JWKS_URL env) = "" ∨ default "" (CLERK_ISSUER env) = "")
  end.
Proof.
  unfold get_clerk_config.
  destruct (String.eqb_spec (lower (default "true" (REQUIRE_AUTH env))) "true")
    as [Heq|Hne]; cbn [andb].
  - destruct (CLERK_JWKS_URL env) as [u|], (CLERK_ISSUER env) as [i|];
      cbn [truthy_opt_str negb orb default];
      repeat match goal with
             | |- context [String.eqb ?x ""] =>
                 destruct (String.eqb_spec x "") as [->|?]
             end; cbn;
      first [ by split; [|left] | by split; [|right] | by repeat split ].
  - cbn. repeat split; done.
Qed.

(** ** Key lookup and verification, further *)

Section auth_more.
Variable config : Config.
Variable current_time : Z.
Variable http_get_json : string → result json.
Variable get_unverified_header : string → result json.
Variable Key : Type.
Variable from_jwk : json → result Key.
Variable jwt_decode : string → Key → string → result json.

Abbreviation fetch_jwks' := (fetch_jwks config current_time http_get_json).
Abbreviation get_signing_key' :=
  (get_signing_key config current_time http_get_json get_unverified_header Key from_jwk).
Abbreviation verify_token' :=
  (verify_token config current_time http_get_json get_unverified_header
     Key from_jwk jwt_decode).
Abbreviation get_current_user' :=
  (get_current_user config current_time http_get_json get_unverified_header
     Key from_jwk jwt_decode).

Lemma find_signing_key_first_match (pre post : list json) (key k kid : json) :
  Forall (λ key, ∃ k, json_get key "kid" JNull = Ok k ∧ py_eq k kid = false) pre →
  json_get key "kid" JNull = Ok k →
  py_eq k kid = true →
  find_signing_key Key from_jwk (pre ++ key :: post) kid
  = (signing_key ← from_jwk key; Ok (Some signing_key)).
Proof.
  intros Hpre Hk Heq. induction Hpre as [|key0 pre (k0 & Hk0 & Hne) _ IH].
  - cbn [app find_signing_key]. rewrite Hk. cbn [mbind result_bind]. by rewrite Heq.
  - cbn [app find_signing_key]. rewrite Hk0. cbn [mbind result_bind]. by rewrite Hne.
Qed.

Lemma get_signing_key_first_match
    (token : string) (c c' : KeyCache) (jwks header kid key k : json)
    (pre post : list json) :
  fetch_jwks' c = (Ok jwks, c') →
  truthy jwks = true →
  get_unverified_header token = Ok header →
  json_get header "kid" JNull = Ok kid →
  json_get jwks "keys" (JArr []) ≫= json_iter = Ok (pre ++ key :: post)%list →
  Forall (λ key, ∃ k, json_get key "kid" JNull = Ok k ∧ py_eq k kid = false) pre →
  json_get key "kid" JNull = Ok k →
  py_eq k kid = true →
  get_signing_key' token c = (from_jwk key, c').
Proof.
  intros Hfetch Htruthy Hhdr Hkid Hkeys Hpre Hk Heq.
  unfold get_signing_key, st_bind. rewrite Hfetch. unfold st_lift.
  rewrite Htruthy. cbn [negb]. rewrite Hhdr. cbn [mbind result_bind].
  rewrite Hkid. cbn [mbind result_bind].
  destruct (json_get jwks "keys" (JArr [])) as [ks|?]; [|done].
  cbn [mbind result_bind] in Hkeys |- *. rewrite Hkeys. cbn [mbind result_bind].
  rewrite (find_signing_key_first_match pre post key k kid Hpre Hk Heq).
  by destruct (from_jwk key).
Qed.

(** X4. When the key set holds several keys with the credential's key
    identifier, the first one in the key set's order is the signing key, and
    the later ones are never looked at: if the first one cannot be turned
    into a key, that error is raised rather than a later key tried. *)
Theorem X4_first_matching_key_is_the_signing_key
    (token : string) (c c' : KeyCache) (jwks header kid key k : json)
    (pre post : list json) :
  fetch_jwks' c = (Ok jwks, c') →
  truthy jwks = true →
  get_unverified_header token = Ok header →
  json_get header "kid" JNull = Ok kid →
  json_get jwks "keys" (JArr []) ≫= json_iter = Ok (pre ++ key :: post)%list →
  Forall (λ key, ∃ k, json_get key "kid" JNull = Ok k ∧ py_eq k kid = false) pre →
  json_get key "kid" JNull = Ok k →
  py_eq k kid = true →
  get_signing_key' token c = (from_jwk key, c').
Proof. apply get_signing_key_first_match. Qed.

(** X5. A credential whose header carries no key identifier is not
    rejected for that: it is matched with the first key of the key set that
    carries no identifier either (or a null one), and that key becomes the
    signing key. *)
Theorem X5_credential_without_kid_takes_key_without_kid
    (token : string) (c c' : KeyCache) (jwks : json)
    (header key : list (string * json)) (post : list json) :
  fetch_jwks' c = (Ok jwks, c') →
  truthy jwks = true →
  get_unverified_header token = Ok (JObj header) →
  assoc_get "kid" header = None →
  json_get jwks "keys" (JArr []) ≫= json_iter = Ok (JObj key :: post) →
  claim key "kid" = JNull →
  get_signing_key' token c = (from_jwk (JObj key), c').
Proof.
  intros Hfetch Htruthy Hhdr Hnokid Hkeys Hkey.
  apply (get_signing_key_first_match token c c' jwks (JObj header)
           JNull (JObj key) JNull [] post); try done.
  - cbn. by rewrite Hnokid.
  - rewrite json_get_obj. by rewrite Hkey.
Qed.

(** X6. Whatever goes wrong in [verify_token], and in either mode, the
    caller sees an [HTTPException] with status 401: the 500 and 503 that
    [get_signing_key] and [fetch_jwks] raise, and every library exception,
    leave it as a 401. *)
Theorem X6_verify_token_fails_only_with_401 (token : string) (c : KeyCache) :
  match fst (verify_token' token c) with
  | Ok _ => True
  | Raise e => ∃ detail, e = HTTPException 401 detail
  end.
Proof.
  unfold verify_token. destruct (String.eqb (require_auth config) "false"); [done|].
  unfold st_reraise.
  destruct ((signing_key <~ get_signing_key' token ;;
             st_lift (jwt_decode token signing_key (issuer config)))%state c)
    as [[payload|e] c']; [done|].
  cbn [fst]. destruct e; cbn; eauto.
Qed.

(** X7. In verification-required mode the only trace a verification leaves
    in the key cache is that of its one call to the key cache: whether the
    credential is accepted or rejected, the cache afterwards is the cache
    [fetch_jwks] leaves. *)
Theorem X7_verification_leaves_the_cache_fetch_jwks_leaves (token : string) (c : KeyCache) :
  require_auth config ≠ "false" →
  snd (verify_token' token c) = snd (fetch_jwks' c)
  ∧ snd (get_current_user' token c) = snd (fetch_jwks' c).
Proof.
  intros Hon.
  assert (snd (get_signing_key' token c) = snd (fetch_jwks' c)) as Hkey.
  { unfold get_signing_key, st_bind, st_lift.
    by destruct (fetch_jwks' c) as [[jwks|e] c']. }
  assert (snd (verify_token' token c) = snd (fetch_jwks' c)) as Hver.
  { rewrite <- Hkey. unfold verify_token.
    destruct (String.eqb_spec (require_auth config) "false") as [?|_]; [done|].
    unfold st_reraise, st_bind, st_lift.
    destruct (get_signing_key' token c) as [[key|e] c']; [|done].
    by destruct (jwt_decode token key (issuer config)). }
  split; [done|]. rewrite <- Hver. unfold get_current_user.
  destruct (String.eqb_spec (require_auth config) "false") as [?|_]; [done|].
  unfold st_bind, st_lift.
  by destruct (verify_token' token c) as [[claims|e] c'].
Qed.

(** X8. In verification-required mode [verify_token] returns a payload
    exactly when [get_signing_key] finds a key and [jwt.decode] accepts the
    credential under that key and the configured issuer, and the payload is
    the one [jwt.decode] returns. *)
Theorem X8_verify_token_succeeds_iff_key_and_decode
    (token : string) (c c' : KeyCache) (payload : json) :
  require_auth config ≠ "false" →
  verify_token' token c = (Ok payload, c')
  ↔ ∃ key, get_signing_key' token c = (Ok key, c')
           ∧ jwt_decode token key (issuer config) = Ok payload.
Proof.
  intros Hon. split.
  - destruct (get_signing_key' token c) as [[key|e] c0] eqn:Hkey.
    + rewrite (verify_token_decode _ _ _ _ _ _ _ token c c0 key Hon Hkey).
      destruct (jwt_decode token key (issuer config)) as [p|e] eqn:Hdec; [|done].
      intros Heq. inversion Heq; subst. eauto.
    + by rewrite (verify_token_reraises _ _ _ _ _ _ _ token c c0 e Hon Hkey).
  - intros (key & Hkey & Hdec).
    by rewrite (verify_token_decode _ _ _ _ _ _ _ token c c' key Hon Hkey), Hdec.
Qed.

End auth_more.

(** ** From claims to identity, in full *)

Lemma extract_user_claims_eq (kv : list (string * json)) :
  extract_user_claims (JObj kv)
  = if truthy (claim kv "sub")
    then UserClaims_new (claim kv "sub")
           (if truthy (claim kv "org_id") then claim kv "org_id" else claim kv "sub")
           (claim kv "email")
    else Raise (HTTPException 401 "Invalid token claims: missing user_id").
Proof.
  unfold extract_user_claims. rewrite !json_get_obj. cbn [mbind result_bind].
  destruct (truthy (claim kv "org_id")); cbn [mbind result_bind];
    rewrite ?json_get_obj; cbn [mbind result_bind];
    by destruct (truthy (claim kv "sub")).
Qed.

Lemma UserClaims_new_ok (a b e : json) (u : UserClaims) :
  UserClaims_new a b e = Ok u
  ↔ a = JStr (user_id u) ∧ b = JStr (account_id u) ∧ e = email_json u.
Proof.
  unfold UserClaims_new, email_json. split.
  - destruct a, b, e; try done; intros Heq; inversion Heq; subst u; done.
  - intros (-> & -> & ->). destruct u as [uid aid [m|]]; done.
Qed.

Lemma UserClaims_new_raises (a b e : json) (x : exn) :
  UserClaims_new a b e = Raise x → ∃ msg, x = ValidationError msg.
Proof.
  unfold UserClaims_new.
  destruct a, b, e; try done; intros Heq; inversion Heq; eauto.
Qed.

(** X9. The claims of a verified payload yield an identity exactly when
    the subject is a non-empty string, the account (the organization claim
    when truthy, the subject otherwise) is a string, and the email is a
    string or absent or null; the identity carries those three values.
    Otherwise the call raises: the 401 "missing user_id" when the subject is
    absent or falsy (null, empty, zero), and an unhandled pydantic validation
    error, not a 401, when a claim has the wrong type. *)
Theorem X9_identity_exactly_when_claims_are_strings
    (kv : list (string * json)) (u : UserClaims) :
  (extract_user_claims (JObj kv) = Ok u
   ↔ user_id u ≠ ""
     ∧ claim kv "sub" = JStr (user_id u)
     ∧ (if truthy (claim kv "org_id") then claim kv "org_id" else claim kv "sub")
       = JStr (account_id u)
     ∧ claim kv "email" = email_json u)
  ∧ (∀ e, extract_user_claims (JObj kv) = Raise e →
       if truthy (claim kv "sub")
       then ∃ msg, e = ValidationError msg
       else e = HTTPException 401 "Invalid token claims: missing user_id").
Proof.
  rewrite extract_user_claims_eq. split; [split|].
  - destruct (truthy (claim kv "sub")) eqn:Hsub; [|done].
    intros (Hs & Ha & He)%UserClaims_new_ok. repeat split; try done.
    intros Hempty. rewrite Hs, Hempty in Hsub. done.
  - intros (Hne & Hs & Ha & He).
    assert (truthy (claim kv "sub") = true) as ->.
    { rewrite Hs, truthy_JStr. by apply bool_decide_eq_true_2. }
    by apply UserClaims_new_ok.
  - intros e. destruct (truthy (claim kv "sub")).
    + apply UserClaims_new_raises.
    + by intros [= <-].
Qed.

(** ** Pages of a listing *)

Lemma py_slice_sublist {A} (l : list A) (start stop : Z) :
  py_slice l start stop `sublist_of` l.
Proof.
  unfold py_slice. etrans; [apply sublist_take | apply sublist_drop].
Qed.

Section store_more.
Variable Type_new : json → result Type_.t.
Variable Validator_new : json → result Validator.t.
Variable Field_new : json → result Field.t.
Variable Object_new : json → result Object.t.
Variable set_iter : list string → list string.
Hypothesis set_iter_NoDup : ∀ l, NoDup (set_iter l).
Hypothesis set_iter_elem : ∀ l i, i ∈ set_iter l ↔ i ∈ l.

Abbreviation reachable' := (reachable Type_new Validator_new Field_new Object_new).

Lemma list_scoped_pages_compose {A} `{Entity A} (primary : gmap string A)
    (by_owner by_account : gmap string (list string)) (owner account : string) :
  table_wf primary by_owner by_account →
  pages_compose (list_scoped set_iter primary by_owner by_account owner account).
Proof.
  intros Hwf L1 L2 O namespace HO HL1 HL2.
  destruct (list_scoped_eq_all set_iter set_iter_elem primary by_owner by_account
              owner account Hwf)
    as (ents & _ & Heq).
  rewrite !Heq. eexists _, _. split; [done|]. split; [done|]. f_equal.
  rewrite !py_slice_nonneg by lia.
  rewrite !Z2Nat.inj_add by lia. rewrite <- drop_drop.
  by rewrite take_take_drop.
Qed.

Lemma list_scoped_pages_of_one_listing {A} `{Entity A} (primary : gmap string A)
    (by_owner by_account : gmap string (list string)) (owner account : string) :
  table_wf primary by_owner by_account →
  pages_of_one_listing (list_scoped set_iter primary by_owner by_account owner account).
Proof.
  intros Hwf namespace.
  destruct (list_scoped_eq_all set_iter set_iter_elem primary by_owner by_account
              owner account Hwf)
    as (ents & _ & Heq).
  exists (namespace_filter namespace ents). split; [|split].
  - rewrite Heq, py_slice_nonneg by lia.
    rewrite Nat2Z.id. cbn [Z.to_nat drop]. by rewrite take_ge.
  - intros L O. rewrite Heq. eexists. split; [done|]. apply py_slice_sublist.
  - intros L O HO HL. rewrite Heq. eexists. split; [done|].
    rewrite py_slice_nonneg by done. rewrite length_take, length_drop. lia.
Qed.

(** X10. On every reachable store and for each of the four kinds, pages are
    consecutive: for non-negative offset and limits, the page of [L1]
    entities at offset [O] followed by the page of [L2] entities at offset
    [O + L1] is the page of [L1 + L2] entities at offset [O]; nothing is
    skipped and nothing comes twice. *)
Theorem X10_consecutive_pages_join (s : DataStore) (C : UserClaims) :
  reachable' s →
  pages_compose (list_types set_iter s (user_id C) (account_id C))
  ∧ pages_compose (list_validators set_iter s (user_id C) (account_id C))
  ∧ pages_compose (list_fields set_iter s (user_id C) (account_id C))
  ∧ pages_compose (list_objects set_iter s (user_id C) (account_id C)).
Proof.
  intros Hs. apply reachable_wf in Hs. destruct Hs as (Ht & Hv & Hf & Ho).
  split; [|split; [|split]]; by apply list_scoped_pages_compose.
Qed.

(** X11. On every reachable store and for each of the four kinds, the store
    does not check limit and offset, and no integers make a listing raise:
    every page, for negative arguments too, is a sub-sequence of the
    caller's full listing, in its order; the full listing is the page of its own length at offset 0; and
    for a non-negative offset [O] and limit [L] the page holds
    [min L (n - O)] of the [n] entities listed, none when [O] is at or past
    the end. *)
Theorem X11_every_page_is_cut_from_one_listing (s : DataStore) (C : UserClaims) :
  reachable' s →
  pages_of_one_listing (list_types set_iter s (user_id C) (account_id C))
  ∧ pages_of_one_listing (list_validators set_iter s (user_id C) (account_id C))
  ∧ pages_of_one_listing (list_fields set_iter s (user_id C) (account_id C))
  ∧ pages_of_one_listing (list_objects set_iter s (user_id C) (account_id C)).
Proof.
  intros Hs. apply reachable_wf in Hs. destruct Hs as (Ht & Hv & Hf & Ho).
  split; [|split; [|split]]; by apply list_scoped_pages_of_one_listing.
Qed.

End store_more.

(** ** Exact indexes under distinct ids *)

Lemma table_exact_wf {A} `{Entity A} (primary : gmap string A)
    (by_owner by_account : gmap string (list string)) :
  table_exact primary by_owner by_account → table_wf primary by_owner by_account.
Proof.
  intros (Hkey & Hown & Hacc). split; [done|]. split.
  - intros k i Hi. apply Hown in Hi as (o & -> & _). eauto.
  - intros k i Hi. apply Hacc in Hi as (o & -> & _). eauto.
Qed.

Lemma table_exact_empty {A} `{Entity A} : table_exact (∅ : gmap string A) ∅ ∅.
Proof.
  split; [|split].
  - intros k o Hk. by rewrite lookup_empty in Hk.
  - intros k i. unfold index_get. rewrite lookup_empty. cbn. split.
    + by intros ?%elem_of_nil.
    + intros (o & Ho & _). by rewrite lookup_empty in Ho.
  - intros k i. unfold index_get. rewrite lookup_empty. cbn. split.
    + by intros ?%elem_of_nil.
    + intros (o & Ho & _). by rewrite lookup_empty in Ho.
Qed.

(** Filing an entity under a fresh id keeps an index exact. *)
Lemma index_exact_add {A} (attr : A → string) (primary : gmap string A)
    (index : gmap string (list string)) (id : string) (o : A) :
  primary !! id = None →
  (∀ k i, i ∈ index_get index k ↔ ∃ o, primary !! i = Some o ∧ attr o = k) →
  ∀ k i, i ∈ index_get (index_append index (attr o) id) k
         ↔ ∃ o', <[id := o]> primary !! i = Some o' ∧ attr o' = k.
Proof.
  intros Hfresh Hidx k i. rewrite index_get_append.
  destruct (decide (i = id)) as [->|Hne].
  - rewrite lookup_insert_eq. split.
    + destruct (decide (attr o = k)) as [<-|Hk]; [eauto|].
      intros (o' & Ho' & _)%Hidx. congruence.
    + intros (o' & [= <-] & <-). rewrite decide_True by done.
      apply elem_of_app. right. by apply list_elem_of_singleton.
  - rewrite lookup_insert_ne by done. rewrite <- Hidx.
    destruct (decide (attr o = k)) as [<-|Hk]; [|done].
    rewrite elem_of_app, list_elem_of_singleton.
    split; [intros [?|?]; done | auto].
Qed.

Lemma table_exact_add {A} `{Entity A} (primary : gmap string A)
    (by_owner by_account : gmap string (list string)) (o : A) :
  primary !! ent_id o = None →
  table_exact primary by_owner by_account →
  table_exact (<[ent_id o := o]> primary)
    (index_append by_owner (ent_owner_id o) (ent_id o))
    (index_append by_account (ent_account_id o) (ent_id o)).
Proof.
  intros Hfresh (Hkey & Hown & Hacc). split; [|split].
  - intros k o' Hk. destruct (decide (ent_id o = k)) as [<-|Hne].
    + rewrite lookup_insert_eq in Hk. by inversion Hk.
    + rewrite lookup_insert_ne in Hk by done. by apply Hkey.
  - by apply (index_exact_add ent_owner_id).
  - by apply (index_exact_add ent_account_id).
Qed.

Lemma store_exact_init : store_exact DataStore_init.
Proof. split; [|split; [|split]]; apply table_exact_empty. Qed.

Lemma store_exact_wf s : store_exact s → store_wf s.
Proof.
  intros (Ht & Hv & Hf & Ho).
  split; [|split; [|split]]; by apply table_exact_wf.
Qed.

Lemma fmap_None_inv {A B} (f : A → B) (o : option A) : f <$> o = None → o = None.
Proof. by destruct o. Qed.

Lemma add_entity_exact (e : entity) (s : DataStore) :
  store_lookup s (entity_key e) = None →
  store_exact s → store_exact (add_entity e s).
Proof.
  intros Hfresh (Ht & Hv & Hf & Ho).
  destruct e as [o|o|o|o]; cbn in Hfresh; apply fmap_None_inv in Hfresh;
    (split; [|split; [|split]]); try done.
  - exact (table_exact_add (types s) _ _ o Hfresh Ht).
  - exact (table_exact_add (validators s) _ _ o Hfresh Hv).
  - exact (table_exact_add (fields s) _ _ o Hfresh Hf).
  - exact (table_exact_add (objects s) _ _ o Hfresh Ho).
Qed.

Lemma store_lookup_add (e : entity) (s : DataStore) (key : kind * string) :
  store_lookup (add_entity e s) key
  = if decide (key = entity_key e) then Some e else store_lookup s key.
Proof.
  destruct key as [k i].
  destruct e as [o|o|o|o], k; cbn -[decide];
    try (rewrite decide_False by congruence; done);
    (destruct (decide (i = ent_id o)) as [->|Hne];
     [ rewrite decide_True by done; by rewrite lookup_insert_eq
     | rewrite decide_False by (intros Heq; apply Hne; by inversion Heq);
       by rewrite lookup_insert_ne ]).
Qed.

Section distinct_facts.
Variable Type_new : json → result Type_.t.
Variable Validator_new : json → result Validator.t.
Variable Field_new : json → result Field.t.
Variable Object_new : json → result Object.t.
Variable set_iter : list string → list string.
Hypothesis set_iter_NoDup : ∀ l, NoDup (set_iter l).
Hypothesis set_iter_elem : ∀ l i, i ∈ set_iter l ↔ i ∈ l.

Abbreviation ingest' := (ingest Type_new Validator_new Field_new Object_new).
Abbreviation run_records' := (run_records Type_new Validator_new Field_new Object_new).
Abbreviation validate' := (validate Type_new Validator_new Field_new Object_new).
Abbreviation record_key' := (record_key Type_new Validator_new Field_new Object_new).
Abbreviation load' := (load_fixtures Type_new Validator_new Field_new Object_new).

Lemma ingest_validate (r : raw_record) (s : DataStore) :
  ingest' r s = (e ← validate' r; Ok (add_entity e s)).
Proof.
  destruct r as [raw|raw|raw|raw]; cbn;
    [destruct (Type_new raw) | destruct (Validator_new raw)
    | destruct (Field_new raw) | destruct (Object_new raw)]; done.
Qed.

(** A run over records filed at places that are free and pairwise distinct
    keeps the indexes exact, wherever it stops. *)
Lemma run_records_exact (rs : list raw_record) (s : DataStore) :
  NoDup (omap record_key' rs) →
  (∀ key, key ∈ omap record_key' rs → store_lookup s key = None) →
  store_exact s →
  store_exact (snd (run_records' rs s)).
Proof.
  revert s. induction rs as [|r rs IH]; intros s Hnd Hfree Hs; [done|].
  cbn [run_records]. rewrite ingest_validate.
  cbn [omap list_omap] in Hnd, Hfree. unfold record_key in Hnd, Hfree at 1.
  destruct (validate' r) as [e|x]; cbn [mbind result_bind]; [|done].
  apply NoDup_cons in Hnd as [Hnotin Hnd].
  apply IH; [done| |].
  - intros key Hkey. rewrite store_lookup_add.
    rewrite decide_False by (intros ->; done).
    apply Hfree. by right.
  - apply add_entity_exact; [|done]. apply Hfree. by left.
Qed.

Lemma omap_record_key_types (raws : list json) :
  omap record_key' (map RawType raws) = (KType,.) <$> valid_ids Type_new raws.
Proof.
  induction raws as [|raw raws IH]; [done|].
  cbn. unfold valid_ids in *. cbn. unfold record_key at 1. cbn.
  destruct (Type_new raw); cbn; by rewrite IH.
Qed.

Lemma omap_record_key_validators (raws : list json) :
  omap record_key' (map RawValidator raws) = (KValidator,.) <$> valid_ids Validator_new raws.
Proof.
  induction raws as [|raw raws IH]; [done|].
  cbn. unfold valid_ids in *. cbn. unfold record_key at 1. cbn.
  destruct (Validator_new raw); cbn; by rewrite IH.
Qed.

Lemma omap_record_key_fields (raws : list json) :
  omap record_key' (map RawField raws) = (KField,.) <$> valid_ids Field_new raws.
Proof.
  induction raws as [|raw raws IH]; [done|].
  cbn. unfold valid_ids in *. cbn. unfold record_key at 1. cbn.
  destruct (Field_new raw); cbn; by rewrite IH.
Qed.

Lemma omap_record_key_objects (raws : list json) :
  omap record_key' (map RawObject raws) = (KObject,.) <$> valid_ids Object_new raws.
Proof.
  induction raws as [|raw raws IH]; [done|].
  cbn. unfold valid_ids in *. cbn. unfold record_key at 1. cbn.
  destruct (Object_new raw); cbn; by rewrite IH.
Qed.

Lemma dataset_keys (d : Dataset) :
  omap record_key' (dataset_records d)
  = (((KType,.) <$> valid_ids Type_new (ds_types d))
     ++ ((KValidator,.) <$> valid_ids Validator_new (ds_validators d))
     ++ ((KField,.) <$> valid_ids Field_new (ds_fields d))
     ++ ((KObject,.) <$> valid_ids Object_new (ds_objects d)))%list.
Proof.
  unfold dataset_records. rewrite !omap_app.
  by rewrite omap_record_key_types, omap_record_key_validators,
    omap_record_key_fields, omap_record_key_objects.
Qed.

Lemma dataset_keys_NoDup (d : Dataset) :
  distinct_ids Type_new Validator_new Field_new Object_new d →
  NoDup (omap record_key' (dataset_records d)).
Proof.
  intros (Ht & Hv & Hf & Ho). rewrite dataset_keys.
  repeat (apply NoDup_app; split;
          [by apply (NoDup_fmap_2 _)
          | split;
            [intros key (i & -> & _)%list_elem_of_fmap Hin;
             repeat (apply elem_of_app in Hin as [Hin|Hin]);
             apply list_elem_of_fmap in Hin as (j & Heq & _); discriminate|]]).
  by apply (NoDup_fmap_2 _).
Qed.

(** Loading a dataset with distinct ids into a fresh store gives exact
    indexes, whether the load succeeds or stops at a malformed record. *)
Lemma load_distinct_exact (d : Dataset) :
  distinct_ids Type_new Validator_new Field_new Object_new d →
  store_exact (snd (load' (dataset_file d) DataStore_init)).
Proof.
  intros Hd. rewrite load_fixtures_run. apply run_records_exact.
  - by apply dataset_keys_NoDup.
  - intros [[] i] _; cbn; by rewrite lookup_empty.
  - apply store_exact_init.
Qed.

End distinct_facts.

(** ** Listing and lookup agree *)

Section agreement.
Variable Type_new : json → result Type_.t.
Variable Validator_new : json → result Validator.t.
Variable Field_new : json → result Field.t.
Variable Object_new : json → result Object.t.
Variable set_iter : list string → list string.
Hypothesis set_iter_NoDup : ∀ l, NoDup (set_iter l).
Hypothesis set_iter_elem : ∀ l i, i ∈ set_iter l ↔ i ∈ l.

Lemma Forall2_lookup_elem {A} (primary : gmap string A) (ids : list string)
    (ents : list A) (e : A) :
  Forall2 (λ i e, primary !! i = Some e) ids ents →
  e ∈ ents ↔ ∃ i, i ∈ ids ∧ primary !! i = Some e.
Proof.
  induction 1 as [|i e' ids ents Hi _ IH].
  - split; [by intros ?%elem_of_nil | by intros (i & ?%elem_of_nil & _)].
  - rewrite elem_of_cons, IH. split.
    + intros [->|(j & Hj & He)]; [exists i; split; [left|done] | exists j; split; [by right|done]].
    + intros (j & Hj & He). apply elem_of_cons in Hj as [->|Hj]; [|eauto].
      left. congruence.
Qed.

Lemma list_scoped_matches_get {A} `{Entity A} (primary : gmap string A)
    (by_owner by_account : gmap string (list string)) (owner account : string) :
  table_exact primary by_owner by_account →
  listing_matches_get
    (list_scoped set_iter primary by_owner by_account owner account)
    (λ i, get_scoped primary i owner account).
Proof.
  intros Hex. pose proof (table_exact_wf _ _ _ Hex) as Hwf.
  destruct Hex as (Hkey & Hown & Hacc).
  destruct (list_scoped_eq_all set_iter set_iter_elem primary by_owner by_account
              owner account Hwf) as (ents & Hf & Heq).
  assert (∀ e, e ∈ ents ↔ get_scoped primary (ent_id e) owner account = Some e) as Hin.
  { intros e. rewrite (Forall2_lookup_elem primary _ ents e Hf), get_scoped_visible.
    split.
    - intros (i & Hi & He). pose proof (Hkey _ _ He) as <-. split; [done|].
      apply set_iter_elem, elem_of_app in Hi as [Hi|Hi].
      + apply Hown in Hi as (o & Ho & <-). left. congruence.
      + apply Hacc in Hi as (o & Ho & <-). right. congruence.
    - intros (He & Hvis). exists (ent_id e). split; [|done].
      apply set_iter_elem, elem_of_app.
      destruct Hvis as [<-|<-]; [left; apply Hown | right; apply Hacc]; eauto. }
  split.
  - intros L O namespace page e Hpage He. rewrite Heq in Hpage.
    inversion Hpage; subst page. apply Hin.
    apply (elem_of_sublist _ _ _ He). etrans; [apply py_slice_sublist|].
    unfold namespace_filter. destruct namespace as [ns|]; [|done].
    destruct (decide (ns = "")); [done|]. apply sublist_filter.
  - intros i e Hget. pose proof Hget as Hget'.
    apply get_scoped_visible in Hget' as (He & _). pose proof (Hkey _ _ He) as <-.
    apply Hin, list_elem_of_lookup in Hget as (n & Hn).
    exists (Z.of_nat n). split; [lia|]. rewrite Heq. f_equal.
    rewrite py_slice_nonneg by lia. rewrite Nat2Z.id. cbn [namespace_filter].
    change (Z.to_nat 1) with 1%nat.
    rewrite (drop_S _ _ _ Hn). done.
Qed.

(** X12. After a dataset whose ids are distinct within each kind has been
    loaded into a fresh store (to the end, or up to a malformed record), the
    listings and the lookups of any caller agree, for each of the four kinds:
    every entity on any page, under any namespace, is one that the lookup by
    its id returns to that caller, so is visible to the caller; and every
    entity the lookup returns is on the caller's listing. *)
Theorem X12_listing_and_lookup_agree_for_distinct_ids (d : Dataset) (C : UserClaims) :
  distinct_ids Type_new Validator_new Field_new Object_new d →
  listing_matches_get
    (list_types set_iter
       (snd (load_fixtures Type_new Validator_new Field_new Object_new
               (dataset_file d) DataStore_init))
       (user_id C) (account_id C))
    (λ i, get_type
            (snd (load_fixtures Type_new Validator_new Field_new Object_new
                    (dataset_file d) DataStore_init))
            i (user_id C) (account_id C))
  ∧ listing_matches_get
      (list_validators set_iter
         (snd (load_fixtures Type_new Validator_new Field_new Object_new
                 (dataset_file d) DataStore_init))
         (user_id C) (account_id C))
      (λ i, get_validator
              (snd (load_fixtures Type_new Validator_new Field_new Object_new
                      (dataset_file d) DataStore_init))
              i (user_id C) (account_id C))
  ∧ listing_matches_get
      (list_fields set_iter
         (snd (load_fixtures Type_new Validator_new Field_new Object_new
                 (dataset_file d) DataStore_init))
         (user_id C) (account_id C))
      (λ i, get_field
              (snd (load_fixtures Type_new Validator_new Field_new Object_new
                      (dataset_file d) DataStore_init))
              i (user_id C) (account_id C))
  ∧ listing_matches_get
      (list_objects set_iter
         (snd (load_fixtures Type_new Validator_new Field_new Object_new
                 (dataset_file d) DataStore_init))
         (user_id C) (account_id C))
      (λ i, get_object
              (snd (load_fixtures Type_new Validator_new Field_new Object_new
                      (dataset_file d) DataStore_init))
              i (user_id C) (account_id C)).
Proof.
  intros Hd.
  destruct (load_distinct_exact Type_new Validator_new Field_new Object_new d Hd)
    as (Ht & Hv & Hf & Ho).
  split; [|split; [|split]]; by apply list_scoped_matches_get.
Qed.

End agreement.

(** ** A repeated id *)

Section repeated_id.
Variable Type_new : json → result Type_.t.
Variable Validator_new : json → result Validator.t.
Variable Field_new : json → result Field.t.
Variable Object_new : json → result Object.t.
Variable set_iter : list string → list string.
Hypothesis set_iter_NoDup : ∀ l, NoDup (set_iter l).
Hypothesis set_iter_elem : ∀ l i, i ∈ set_iter l ↔ i ∈ l.

Lemma set_iter_twice (a : string) : set_iter [a; a] = [a].
Proof.
  pose proof (set_iter_NoDup [a; a]) as Hnd.
  assert (∀ x, x ∈ set_iter [a; a] → x = a) as Hall.
  { intros x Hx. apply (proj1 (set_iter_elem _ _)) in Hx.
    apply elem_of_cons in Hx as [?|Hx]; [done|].
    apply elem_of_cons in Hx as [?|Hx]; [done|].
    by apply elem_of_nil in Hx. }
  assert (a ∈ set_iter [a; a]) as Ha by (apply set_iter_elem; left).
  destruct (set_iter [a; a]) as [|x [|y l]].
  - by apply elem_of_nil in Ha.
  - f_equal. apply Hall. left.
  - apply NoDup_cons in Hnd as [Hx _]. exfalso. apply Hx.
    rewrite (Hall x) by left. rewrite (Hall y) by (right; left). left.
Qed.

(** X13. Ids are not checked for uniqueness when loading, and a repeated id
    breaks the tenant scoping of listings: when a dataset holds two type
    records with the same id, of different owners and accounts, the later
    record replaces the earlier one in the primary map while the earlier
    owner's index entry stays, so the earlier owner's listing returns the
    later owner's entity, which the lookup by id refuses to that same
    caller. *)
Theorem X13_repeated_id_lists_another_tenants_entity
    (r1 r2 : json) (o1 o2 : Type_.t) (L : Z) :
  Type_new r1 = Ok o1 →
  Type_new r2 = Ok o2 →
  Type_.id o1 = Type_.id o2 →
  Type_.owner_id o2 ≠ Type_.owner_id o1 →
  Type_.account_id o2 ≠ Type_.account_id o1 →
  1 ≤ L →
  list_types set_iter
    (snd (load_fixtures Type_new Validator_new Field_new Object_new
            (dataset_file {| ds_types := [r1; r2]; ds_validators := [];
                             ds_fields := []; ds_objects := [] |})
            DataStore_init))
    (Type_.owner_id o1) (Type_.account_id o1) L 0 None
  = Ok [o2]
  ∧ get_type
      (snd (load_fixtures Type_new Validator_new Field_new Object_new
              (dataset_file {| ds_types := [r1; r2]; ds_validators := [];
                               ds_fields := []; ds_objects := [] |})
              DataStore_init))
      (Type_.id o2) (Type_.owner_id o1) (Type_.account_id o1)
    = None.
Proof.
  intros H1 H2 Hid Hown Hacc HL.
  rewrite load_fixtures_run. unfold dataset_records. cbn [ds_types ds_validators
    ds_fields ds_objects map app run_records ingest].
  rewrite H1. cbn [mbind result_bind]. rewrite H2. cbn [mbind result_bind snd st_ret].
  split.
  - unfold list_types, list_scoped. cbn [types types_by_owner types_by_account add_type].
    rewrite !index_get_append.
    rewrite (decide_False (P := Type_.owner_id o2 = Type_.owner_id o1)) by done.
    rewrite (decide_False (P := Type_.account_id o2 = Type_.account_id o1)) by done.
    rewrite !decide_True by done.
    unfold index_get. cbn [types_by_owner types_by_account DataStore_init].
    rewrite !lookup_empty. cbn [default app]. rewrite set_iter_twice.
    cbn [mapM]. rewrite Hid, lookup_insert_eq. cbn [mbind result_bind mret result_ret].
    f_equal. rewrite py_slice_nonneg by lia.
    change (Z.to_nat 0) with 0%nat. cbn [drop].
    destruct (Z.to_nat L) eqn:HLn; [lia|]. cbn [take]. by rewrite take_nil.
  - unfold get_type, get_scoped. cbn [types add_type]. rewrite lookup_insert_eq.
    cbn [ent_owner_id ent_account_id Type_Entity].
    by rewrite !bool_decide_eq_false_2.
Qed.

End repeated_id.

(** ** A load that succeeds *)

Section round_trip.
Variable Type_new : json → result Type_.t.
Variable Validator_new : json → result Validator.t.
Variable Field_new : json → result Field.t.
Variable Object_new : json → result Object.t.

Abbreviation run_records' := (run_records Type_new Validator_new Field_new Object_new).
Abbreviation validate' := (validate Type_new Validator_new Field_new Object_new).
Abbreviation record_key' := (record_key Type_new Validator_new Field_new Object_new).
Abbreviation load' := (load_fixtures Type_new Validator_new Field_new Object_new).
Abbreviation ingest_validate' :=
  (ingest_validate Type_new Validator_new Field_new Object_new).

Lemma validate_kind (r : raw_record) (e : entity) :
  validate' r = Ok e → (entity_key e).1 = record_kind r.
Proof.
  destruct r as [raw|raw|raw|raw]; cbn;
    [destruct (Type_new raw) | destruct (Validator_new raw)
    | destruct (Field_new raw) | destruct (Object_new raw)]; cbn;
    intros Heq; inversion Heq; done.
Qed.

(** What is filed at a place no later record is filed at stays there. *)
Lemma run_records_persist (rs : list raw_record) (s : DataStore)
    (key : kind * string) (e : entity) :
  store_lookup s key = Some e →
  key ∉ omap record_key' rs →
  store_lookup (snd (run_records' rs s)) key = Some e.
Proof.
  revert s. induction rs as [|r rs IH]; intros s Hs Hnotin; [done|].
  cbn [run_records]. rewrite ingest_validate'.
  cbn [omap list_omap] in Hnotin. unfold record_key in Hnotin at 1.
  destruct (validate' r) as [e0|x]; cbn [mbind result_bind]; [|done].
  apply not_elem_of_cons in Hnotin as [Hne Hnotin].
  apply IH; [|done]. rewrite store_lookup_add. by rewrite decide_False.
Qed.

Lemma run_records_ok_lookup (rs : list raw_record) (s : DataStore) :
  NoDup (omap record_key' rs) →
  fst (run_records' rs s) = Ok tt →
  ∀ r e, r ∈ rs → validate' r = Ok e →
         store_lookup (snd (run_records' rs s)) (entity_key e) = Some e.
Proof.
  revert s. induction rs as [|r0 rs IH]; intros s Hnd Hok r e Hr He.
  { by apply elem_of_nil in Hr. }
  cbn [run_records] in Hok |- *. rewrite ingest_validate' in Hok |- *.
  cbn [omap list_omap] in Hnd. unfold record_key in Hnd at 1.
  destruct (validate' r0) as [e0|x] eqn:He0; cbn [mbind result_bind] in Hok |- *;
    [|done].
  apply NoDup_cons in Hnd as [Hnotin Hnd].
  apply elem_of_cons in Hr as [->|Hr].
  - rewrite He0 in He. inversion He; subst e0.
    apply run_records_persist; [|done].
    rewrite store_lookup_add. by rewrite decide_True.
  - by apply (IH _ Hnd Hok r).
Qed.

Lemma store_size_add (e : entity) (s : DataStore) (k : kind) :
  store_lookup s (entity_key e) = None →
  store_size (add_entity e s) k
  = (store_size s k + if decide ((entity_key e).1 = k) then 1 else 0)%nat.
Proof.
  intros Hfresh.
  destruct e as [o|o|o|o], k; cbn -[decide] in Hfresh |- *;
    apply fmap_None_inv in Hfresh;
    (destruct (decide _) as [Hk|Hk]; [try discriminate Hk | try (by destruct Hk)]);
    rewrite ?map_size_insert_None by done; lia.
Qed.

Lemma run_records_ok_size (rs : list raw_record) (s : DataStore) (k : kind) :
  NoDup (omap record_key' rs) →
  (∀ key, key ∈ omap record_key' rs → store_lookup s key = None) →
  fst (run_records' rs s) = Ok tt →
  store_size (snd (run_records' rs s)) k
  = (store_size s k + length (filter (λ r, record_kind r = k) rs))%nat.
Proof.
  revert s. induction rs as [|r rs IH]; intros s Hnd Hfree Hok.
  { cbn. lia. }
  cbn [run_records] in Hok |- *. rewrite ingest_validate' in Hok |- *.
  cbn [omap list_omap] in Hnd, Hfree. unfold record_key in Hnd, Hfree at 1.
  destruct (validate' r) as [e|x] eqn:He; cbn [mbind result_bind] in Hok |- *;
    [|done].
  apply NoDup_cons in Hnd as [Hnotin Hnd].
  rewrite IH; [|done| |done].
  - rewrite store_size_add by (apply Hfree; left).
    rewrite (validate_kind r e He). rewrite filter_cons.
    destruct (decide (record_kind r = k)); cbn [length]; lia.
  - intros key Hkey. rewrite store_lookup_add.
    rewrite decide_False by (intros ->; done).
    apply Hfree. by right.
Qed.

Lemma count_kind_tag (tag : json → raw_record) (k0 k : kind) (raws : list json) :
  (∀ raw, record_kind (tag raw) = k0) →
  length (filter (λ r, record_kind r = k) (map tag raws))
  = if decide (k0 = k) then length raws else 0%nat.
Proof.
  intros Htag. induction raws as [|raw raws IH].
  - by destruct (decide (k0 = k)).
  - cbn [map]. rewrite filter_cons, Htag.
    destruct (decide (k0 = k)); cbn [length]; by rewrite IH.
Qed.

Lemma count_kind_dataset (d : Dataset) (k : kind) :
  length (filter (λ r, record_kind r = k) (dataset_records d))
  = match k with
    | KType => length (ds_types d)
    | KValidator => length (ds_validators d)
    | KField => length (ds_fields d)
    | KObject => length (ds_objects d)
    end.
Proof.
  unfold dataset_records. rewrite !filter_app, !length_app.
  rewrite (count_kind_tag RawType KType), (count_kind_tag RawValidator KValidator),
    (count_kind_tag RawField KField), (count_kind_tag RawObject KObject) by done.
  destruct k; repeat (destruct (decide _) as [?|?]; try discriminate; try done); lia.
Qed.

Lemma store_lookup_init (key : kind * string) : store_lookup DataStore_init key = None.
Proof. destruct key as [[] i]; cbn; by rewrite lookup_empty. Qed.

Lemma get_scoped_own {A} `{Entity A} (primary : gmap string A) (o : A) :
  primary !! ent_id o = Some o →
  get_scoped primary (ent_id o) (ent_owner_id o) (ent_account_id o) = Some o.
Proof. intros Ho. apply get_scoped_visible. auto. Qed.

(** X14. A dataset whose ids are distinct within each kind and whose load
    into a fresh store succeeds is all there afterwards: the four counts the
    health check reports are the numbers of records of the four sequences,
    and every record's entity is returned by the lookup by its id to its own
    owner and account. *)
Theorem X14_loaded_dataset_is_all_there (d : Dataset) :
  distinct_ids Type_new Validator_new Field_new Object_new d →
  fst (load' (dataset_file d) DataStore_init) = Ok tt →
  health (snd (load' (dataset_file d) DataStore_init))
  = {| h_types := length (ds_types d);
       h_validators := length (ds_validators d);
       h_fields := length (ds_fields d);
       h_objects := length (ds_objects d) |}
  ∧ (∀ raw o, raw ∈ ds_types d → Type_new raw = Ok o →
       get_type (snd (load' (dataset_file d) DataStore_init))
         (Type_.id o) (Type_.owner_id o) (Type_.account_id o) = Some o)
  ∧ (∀ raw o, raw ∈ ds_validators d → Validator_new raw = Ok o →
       get_validator (snd (load' (dataset_file d) DataStore_init))
         (Validator.id o) (Validator.owner_id o) (Validator.account_id o) = Some o)
  ∧ (∀ raw o, raw ∈ ds_fields d → Field_new raw = Ok o →
       get_field (snd (load' (dataset_file d) DataStore_init))
         (Field.id o) (Field.owner_id o) (Field.account_id o) = Some o)
  ∧ (∀ raw o, raw ∈ ds_objects d → Object_new raw = Ok o →
       get_object (snd (load' (dataset_file d) DataStore_init))
         (Object.id o) (Object.owner_id o) (Object.account_id o) = Some o).
Proof.
  intros Hd. rewrite load_fixtures_run. intros Hok.
  pose proof (dataset_keys_NoDup Type_new Validator_new Field_new Object_new d Hd) as Hnd.
  assert (∀ k, store_size (snd (run_records' (dataset_records d) DataStore_init)) k
               = match k with
                 | KType => length (ds_types d)
                 | KValidator => length (ds_validators d)
                 | KField => length (ds_fields d)
                 | KObject => length (ds_objects d)
                 end) as Hsize.
  { intros k. rewrite run_records_ok_size; [|done| |done].
    - rewrite count_kind_dataset. destruct k; cbn; by rewrite map_size_empty.
    - intros key _. apply store_lookup_init. }
  assert (∀ r e, r ∈ dataset_records d → validate' r = Ok e →
                 store_lookup (snd (run_records' (dataset_records d) DataStore_init))
                   (entity_key e) = Some e) as Hlook.
  { by apply run_records_ok_lookup. }
  split; [|split; [|split; [|split]]].
  - unfold health. f_equal;
      [apply (Hsize KType) | apply (Hsize KValidator)
      | apply (Hsize KField) | apply (Hsize KObject)].
  - intros raw o Hraw Ho. refine (get_scoped_own (types _) o _).
    specialize (Hlook (RawType raw) (EType o)). cbn in Hlook. rewrite Ho in Hlook.
    apply fmap_Some in Hlook as (o' & Hl & Heq); [by inversion Heq; subst| |done].
    unfold dataset_records. rewrite !elem_of_app, !list_elem_of_fmap. eauto.
  - intros raw o Hraw Ho. refine (get_scoped_own (validators _) o _).
    specialize (Hlook (RawValidator raw) (EValidator o)). cbn in Hlook.
    rewrite Ho in Hlook.
    apply fmap_Some in Hlook as (o' & Hl & Heq); [by inversion Heq; subst| |done].
    unfold dataset_records. rewrite !elem_of_app, !list_elem_of_fmap. eauto 6.
  - intros raw o Hraw Ho. refine (get_scoped_own (fields _) o _).
    specialize (Hlook (RawField raw) (EField o)). cbn in Hlook. rewrite Ho in Hlook.
    apply fmap_Some in Hlook as (o' & Hl & Heq); [by inversion Heq; subst| |done].
    unfold dataset_records. rewrite !elem_of_app, !list_elem_of_fmap. eauto 8.
  - intros raw o Hraw Ho. refine (get_scoped_own (objects _) o _).
    specialize (Hlook (RawObject raw) (EObject o)). cbn in Hlook. rewrite Ho in Hlook.
    apply fmap_Some in Hlook as (o' & Hl & Heq); [by inversion Heq; subst| |done].
    unfold dataset_records. rewrite !elem_of_app, !list_elem_of_fmap. eauto 8.
Qed.

End round_trip.

(** ** The store singleton and the routes *)

Section singleton_facts.
Variable Type_new : json → result Type_.t.
Variable Validator_new : json → result Validator.t.
Variable Field_new : json → result Field.t.
Variable Object_new : json → result Object.t.

(** X15. The store singleton is bound before it is loaded and is never
    loaded again: when the first call of [get_data_store] raises because the
    load fails, the store is left bound as far as it was loaded, and every
    later call returns that partly loaded store without raising and without
    reading the fixtures again, whatever they hold by then. *)
Theorem X15_failed_first_load_is_never_retried
    (file : option (result json)) (e : exn) (g : option DataStore) :
  get_data_store Type_new Validator_new Field_new Object_new file None = (Raise e, g) →
  g = Some (snd (load_fixtures Type_new Validator_new Field_new Object_new
                   file DataStore_init))
  ∧ fst (load_fixtures Type_new Validator_new Field_new Object_new file DataStore_init)
    = Raise e
  ∧ ∀ file',
      get_data_store Type_new Validator_new Field_new Object_new file' g
      = (Ok (snd (load_fixtures Type_new Validator_new Field_new Object_new
                    file DataStore_init)), g).
Proof.
  unfold get_data_store.
  destruct (load_fixtures Type_new Validator_new Field_new Object_new file DataStore_init)
    as [[[]|x] s]; [done|].
  intros Heq. inversion Heq; subst. done.
Qed.

End singleton_facts.

Lemma route_get_cases {A} (o : option A) (x : exn) (r : result A) :
  r = match o with None => Raise x | Some a => Ok a end →
  (∀ a, r = Ok a ↔ o = Some a) ∧ (∀ y, r = Raise y → y = x ∧ o = None).
Proof.
  intros ->. destruct o as [a|]; split.
  - intros a'. split; congruence.
  - done.
  - intros a'. split; done.
  - intros y Hy. by inversion Hy.
Qed.

(** X16. Each of the four [GET /{id}] handlers returns an entity exactly
    when the store holds it under the requested id and its owner or its
    account is the caller's; in every other case it raises the same 404,
    whose text names the requested id and nothing else, so that for a given
    id the refusal of an entity that exists and the refusal of one that does
    not are the same response. *)
Theorem X16_get_routes_answer_404_alike
    (id : string) (C : UserClaims) (s : DataStore) :
  ((∀ e, Routes.get_type id C s = Ok e
         ↔ types s !! id = Some e
           ∧ (Type_.owner_id e = user_id C ∨ Type_.account_id e = account_id C))
   ∧ (∀ x, Routes.get_type id C s = Raise x →
        x = HTTPException 404 ("Type with ID '" +:+ id +:+ "' not found or access denied")))
  ∧ ((∀ e, Routes.get_validator id C s = Ok e
           ↔ validators s !! id = Some e
             ∧ (Validator.owner_id e = user_id C ∨ Validator.account_id e = account_id C))
     ∧ (∀ x, Routes.get_validator id C s = Raise x →
          x = HTTPException 404
                ("Validator with ID '" +:+ id +:+ "' not found or access denied")))
  ∧ ((∀ e, Routes.get_field id C s = Ok e
           ↔ fields s !! id = Some e
             ∧ (Field.owner_id e = user_id C ∨ Field.account_id e = account_id C))
     ∧ (∀ x, Routes.get_field id C s = Raise x →
          x = HTTPException 404
                ("Field with ID '" +:+ id +:+ "' not found or access denied")))
  ∧ ((∀ e, Routes.get_object id C s = Ok e
           ↔ objects s !! id = Some e
             ∧ (Object.owner_id e = user_id C ∨ Object.account_id e = account_id C))
     ∧ (∀ x, Routes.get_object id C s = Raise x →
          x = HTTPException 404
                ("Object with ID '" +:+ id +:+ "' not found or access denied"))).
Proof.
  split; [|split; [|split]].
  - destruct (route_get_cases _ _ _ (eq_refl (Routes.get_type id C s))) as [Hok Herr].
    split; [|intros x Hx; by apply Herr].
    intros e. rewrite Hok.
    exact (get_scoped_visible (types s) e id (user_id C) (account_id C)).
  - destruct (route_get_cases _ _ _ (eq_refl (Routes.get_validator id C s)))
      as [Hok Herr].
    split; [|intros x Hx; by apply Herr].
    intros e. rewrite Hok.
    exact (get_scoped_visible (validators s) e id (user_id C) (account_id C)).
  - destruct (route_get_cases _ _ _ (eq_refl (Routes.get_field id C s))) as [Hok Herr].
    split; [|intros x Hx; by apply Herr].
    intros e. rewrite Hok.
    exact (get_scoped_visible (fields s) e id (user_id C) (account_id C)).
  - destruct (route_get_cases _ _ _ (eq_refl (Routes.get_object id C s))) as [Hok Herr].
    split; [|intros x Hx; by apply Herr].
    intros e. rewrite Hok.
    exact (get_scoped_visible (objects s) e id (user_id C) (account_id C)).
Qed.

(** ** The further properties on the sample data *)

(** X1 on a fresh cache: the second call, a hundred seconds later, does not
    see that the key source is down. *)
Lemma X1_sample_calls :
  truthy (_jwks_cache KeyCache_init)
  && (100 - _jwks_cache_time KeyCache_init <? JWKS_CACHE_TTL) = false
  ∧ jwks_url sample_config ≠ ""
  ∧ sample_http_get (jwks_url sample_config) = Ok sample_jwks
  ∧ truthy sample_jwks = true
  ∧ 200 - 100 < JWKS_CACHE_TTL
  ∧ fetch_jwks sample_config 100 sample_http_get KeyCache_init
    = (Ok sample_jwks, {| _jwks_cache := sample_jwks; _jwks_cache_time := 100 |})
  ∧ fetch_jwks sample_config 200 failing_http_get
      {| _jwks_cache := sample_jwks; _jwks_cache_time := 100 |}
    = (Ok sample_jwks, {| _jwks_cache := sample_jwks; _jwks_cache_time := 100 |}).
Proof.
  assert (jwks_url sample_config ≠ "") as Hurl by discriminate.
  assert (200 - 100 < JWKS_CACHE_TTL) as Hsoon by reflexivity.
  split; [reflexivity|]. split; [exact Hurl|]. split; [reflexivity|].
  split; [reflexivity|]. split; [exact Hsoon|].
  exact (X1_second_call_within_ttl_is_served_from_cache sample_config 100 200
           sample_http_get failing_http_get KeyCache_init sample_jwks
           eq_refl Hurl eq_refl eq_refl Hsoon).
Defined.

(** X2 on a key source that answers with an empty key set, and a second
    later with a key set. *)
Lemma X2_sample_empty_key_set :
  (truthy (_jwks_cache KeyCache_init) = false
   ∨ JWKS_CACHE_TTL ≤ 99 - _jwks_cache_time KeyCache_init)
  ∧ jwks_url sample_config ≠ ""
  ∧ empty_http_get (jwks_url sample_config) = Ok (JObj [])
  ∧ (truthy (JObj []) = false ∨ JWKS_CACHE_TTL ≤ 100 - 99)
  ∧ fetch_jwks sample_config 99 empty_http_get KeyCache_init
    = (Ok (JObj []), {| _jwks_cache := JObj []; _jwks_cache_time := 99 |})
  ∧ fetch_jwks sample_config 100 rotated_http_get
      {| _jwks_cache := JObj []; _jwks_cache_time := 99 |}
    = match rotated_http_get (jwks_url sample_config) with
      | Ok body2 => (Ok body2, {| _jwks_cache := body2; _jwks_cache_time := 100 |})
      | Raise e =>
          (Raise (HTTPException 503 ("Failed to fetch JWKS: " +:+ str_exn e)),
           {| _jwks_cache := JObj []; _jwks_cache_time := 99 |})
      end.
Proof.
  assert (jwks_url sample_config ≠ "") as Hurl by discriminate.
  assert (truthy (_jwks_cache KeyCache_init) = false
          ∨ JWKS_CACHE_TTL ≤ 99 - _jwks_cache_time KeyCache_init)
    as Hstale by (left; reflexivity).
  assert (truthy (JObj []) = false ∨ JWKS_CACHE_TTL ≤ 100 - 99)
    as Hagain by (left; reflexivity).
  split; [exact Hstale|]. split; [exact Hurl|]. split; [reflexivity|].
  split; [exact Hagain|].
  exact (X2_later_call_asks_the_source_again sample_config 99 100 empty_http_get
           rotated_http_get KeyCache_init (JObj []) Hstale Hurl eq_refl Hagain).
Defined.

Lemma doubled_keys_no_match :
  Forall (λ key, ∃ k, json_get key "kid" JNull = Ok k ∧ py_eq k (JStr "key_2") = false)
    [JObj [("kid", JStr "key_1"); ("n", JStr "one")]].
Proof. constructor; [|constructor]. by exists (JStr "key_1"). Qed.

(** X4 on the key set with two keys named [key_2]: the first is taken. *)
Lemma X4_sample_doubled_key :
  fetch_jwks sample_config 100 doubled_http_get KeyCache_init
  = (Ok doubled_jwks, {| _jwks_cache := doubled_jwks; _jwks_cache_time := 100 |})
  ∧ truthy doubled_jwks = true
  ∧ sample_get_unverified_header "key_2"
    = Ok (JObj [("alg", JStr "RS256"); ("kid", JStr "key_2")])
  ∧ get_signing_key sample_config 100 doubled_http_get sample_get_unverified_header
      string modulus_from_jwk "key_2" KeyCache_init
    = (modulus_from_jwk (JObj [("kid", JStr "key_2"); ("n", JStr "first")]),
       {| _jwks_cache := doubled_jwks; _jwks_cache_time := 100 |}).
Proof.
  split; [reflexivity|]. split; [reflexivity|]. split; [reflexivity|].
  exact (X4_first_matching_key_is_the_signing_key sample_config 100 doubled_http_get
           sample_get_unverified_header string modulus_from_jwk "key_2"
           KeyCache_init {| _jwks_cache := doubled_jwks; _jwks_cache_time := 100 |}
           doubled_jwks (JObj [("alg", JStr "RS256"); ("kid", JStr "key_2")])
           (JStr "key_2") (JObj [("kid", JStr "key_2"); ("n", JStr "first")])
           (JStr "key_2")
           [JObj [("kid", JStr "key_1"); ("n", JStr "one")]]
           [JObj [("kid", JStr "key_2"); ("n", JStr "second")]]
           eq_refl eq_refl eq_refl eq_refl eq_refl doubled_keys_no_match
           eq_refl eq_refl).
Defined.

(** X5 on a header and a key that both carry no identifier. *)
Lemma X5_sample_anonymous_key :
  header_without_kid "any" = Ok (JObj [("alg", JStr "RS256")])
  ∧ assoc_get "kid" [("alg", JStr "RS256")] = None
  ∧ claim [("kty", JStr "RSA"); ("n", JStr "anonymous")] "kid" = JNull
  ∧ get_signing_key sample_config 100 anonymous_http_get header_without_kid
      string modulus_from_jwk "any" KeyCache_init
    = (modulus_from_jwk (JObj [("kty", JStr "RSA"); ("n", JStr "anonymous")]),
       {| _jwks_cache := anonymous_jwks; _jwks_cache_time := 100 |}).
Proof.
  split; [reflexivity|]. split; [reflexivity|]. split; [reflexivity|].
  exact (X5_credential_without_kid_takes_key_without_kid sample_config 100
           anonymous_http_get header_without_kid string modulus_from_jwk "any"
           KeyCache_init {| _jwks_cache := anonymous_jwks; _jwks_cache_time := 100 |}
           anonymous_jwks [("alg", JStr "RS256")]
           [("kty", JStr "RSA"); ("n", JStr "anonymous")] []
           eq_refl eq_refl eq_refl eq_refl eq_refl eq_refl).
Defined.

(** X7 on a credential of an unknown key: it is rejected, and the key set
    it made the cache fetch stays. *)
Lemma X7_sample_rejected_credential :
  require_auth sample_config ≠ "false"
  ∧ snd (verify_token sample_config 100 sample_http_get sample_get_unverified_header
           string sample_from_jwk sample_jwt_decode "key_9" KeyCache_init)
    = snd (fetch_jwks sample_config 100 sample_http_get KeyCache_init)
  ∧ snd (get_current_user sample_config 100 sample_http_get sample_get_unverified_header
           string sample_from_jwk sample_jwt_decode "key_9" KeyCache_init)
    = snd (fetch_jwks sample_config 100 sample_http_get KeyCache_init).
Proof.
  assert (require_auth sample_config ≠ "false") as Hon by discriminate.
  split; [exact Hon|].
  exact (X7_verification_leaves_the_cache_fetch_jwks_leaves sample_config 100
           sample_http_get sample_get_unverified_header string sample_from_jwk
           sample_jwt_decode "key_9" KeyCache_init Hon).
Defined.

(** X8 on the credential of the sample key. *)
Lemma X8_sample_accepted_credential :
  require_auth sample_config ≠ "false"
  ∧ (verify_token sample_config 100 sample_http_get sample_get_unverified_header
       string sample_from_jwk sample_jwt_decode "key_1" KeyCache_init
     = (Ok (JObj [("sub", JStr "user_1"); ("iss", JStr "https://clerk.example")]),
        {| _jwks_cache := sample_jwks; _jwks_cache_time := 100 |})
     ↔ ∃ key,
         get_signing_key sample_config 100 sample_http_get sample_get_unverified_header
           string sample_from_jwk "key_1" KeyCache_init
         = (Ok key, {| _jwks_cache := sample_jwks; _jwks_cache_time := 100 |})
         ∧ sample_jwt_decode "key_1" key (issuer sample_config)
           = Ok (JObj [("sub", JStr "user_1"); ("iss", JStr "https://clerk.example")])).
Proof.
  assert (require_auth sample_config ≠ "false") as Hon by discriminate.
  split; [exact Hon|].
  exact (X8_verify_token_succeeds_iff_key_and_decode sample_config 100
           sample_http_get sample_get_unverified_header string sample_from_jwk
           sample_jwt_decode "key_1" KeyCache_init
           {| _jwks_cache := sample_jwks; _jwks_cache_time := 100 |}
           (JObj [("sub", JStr "user_1"); ("iss", JStr "https://clerk.example")]) Hon).
Defined.

(** X10 on the sample store. *)
Lemma X10_sample_store :
  reachable sample_Type_new sample_Validator_new sample_Field_new sample_Object_new
    sample_store
  ∧ pages_compose (list_types sample_set_iter sample_store
                     (user_id test_user) (account_id test_user))
  ∧ pages_compose (list_validators sample_set_iter sample_store
                     (user_id test_user) (account_id test_user))
  ∧ pages_compose (list_fields sample_set_iter sample_store
                     (user_id test_user) (account_id test_user))
  ∧ pages_compose (list_objects sample_set_iter sample_store
                     (user_id test_user) (account_id test_user)).
Proof.
  split; [exact sample_store_reachable|].
  exact (X10_consecutive_pages_join sample_Type_new sample_Validator_new
           sample_Field_new sample_Object_new sample_set_iter sample_set_iter_elem
           sample_store test_user sample_store_reachable).
Defined.

(** X11 on the sample store. *)
Lemma X11_sample_store :
  reachable sample_Type_new sample_Validator_new sample_Field_new sample_Object_new
    sample_store
  ∧ pages_of_one_listing (list_types sample_set_iter sample_store
                            (user_id test_user) (account_id test_user))
  ∧ pages_of_one_listing (list_validators sample_set_iter sample_store
                            (user_id test_user) (account_id test_user))
  ∧ pages_of_one_listing (list_fields sample_set_iter sample_store
                            (user_id test_user) (account_id test_user))
  ∧ pages_of_one_listing (list_objects sample_set_iter sample_store
                            (user_id test_user) (account_id test_user)).
Proof.
  split; [exact sample_store_reachable|].
  exact (X11_every_page_is_cut_from_one_listing sample_Type_new sample_Validator_new
           sample_Field_new sample_Object_new sample_set_iter sample_set_iter_elem
           sample_store test_user sample_store_reachable).
Defined.

Lemma sample_dataset_distinct :
  distinct_ids sample_Type_new sample_Validator_new sample_Field_new sample_Object_new
    sample_dataset.
Proof.
  repeat split; apply (bool_decide_unpack _); vm_compute; exact I.
Qed.

(** X12 on the sample dataset. *)
Lemma X12_sample_dataset :
  distinct_ids sample_Type_new sample_Validator_new sample_Field_new sample_Object_new
    sample_dataset
  ∧ listing_matches_get
      (list_types sample_set_iter sample_store (user_id test_user) (account_id test_user))
      (λ i, get_type sample_store i (user_id test_user) (account_id test_user))
  ∧ listing_matches_get
      (list_validators sample_set_iter sample_store
         (user_id test_user) (account_id test_user))
      (λ i, get_validator sample_store i (user_id test_user) (account_id test_user))
  ∧ listing_matches_get
      (list_fields sample_set_iter sample_store (user_id test_user) (account_id test_user))
      (λ i, get_field sample_store i (user_id test_user) (account_id test_user))
  ∧ listing_matches_get
      (list_objects sample_set_iter sample_store
         (user_id test_user) (account_id test_user))
      (λ i, get_object sample_store i (user_id test_user) (account_id test_user)).
Proof.
  split; [exact sample_dataset_distinct|].
  exact (X12_listing_and_lookup_agree_for_distinct_ids sample_Type_new
           sample_Validator_new sample_Field_new sample_Object_new sample_set_iter
           sample_set_iter_elem sample_dataset test_user sample_dataset_distinct).
Defined.

(** X13 on the two tenants filing a type under the same id. *)
Lemma X13_sample_clash :
  ∃ o1 o2 : Type_.t,
    sample_Type_new
      (raw_entity "type_1" "user_test123" "acct_test123" [("python_type", JStr "str")])
    = Ok o1
    ∧ sample_Type_new
        (raw_entity "type_1" "user_other456" "acct_other456" [("python_type", JStr "int")])
      = Ok o2
    ∧ Type_.id o1 = Type_.id o2
    ∧ Type_.owner_id o2 ≠ Type_.owner_id o1
    ∧ Type_.account_id o2 ≠ Type_.account_id o1
    ∧ 1 ≤ 100
    ∧ list_types sample_set_iter (snd (sample_load clashing_dataset DataStore_init))
        (Type_.owner_id o1) (Type_.account_id o1) 100 0 None
      = Ok [o2]
    ∧ get_type (snd (sample_load clashing_dataset DataStore_init))
        (Type_.id o2) (Type_.owner_id o1) (Type_.account_id o1)
      = None.
Proof.
  exists (Type_.mk "type_1" "type_1" "str" "" true false JNull
            "user_test123" "acct_test123"
            "2024-01-01T00:00:00Z" "2024-01-01T00:00:00Z"),
         (Type_.mk "type_1" "type_1" "int" "" true false JNull
            "user_other456" "acct_other456"
            "2024-01-01T00:00:00Z" "2024-01-01T00:00:00Z").
  assert ("user_other456" ≠ "user_test123") as Hown by discriminate.
  assert ("acct_other456" ≠ "acct_test123") as Hacc by discriminate.
  assert (1 ≤ 100) as HL by discriminate.
  split; [reflexivity|]. split; [reflexivity|]. split; [reflexivity|].
  split; [exact Hown|]. split; [exact Hacc|]. split; [exact HL|].
  exact (X13_repeated_id_lists_another_tenants_entity sample_Type_new
           sample_Validator_new sample_Field_new sample_Object_new sample_set_iter
           sample_set_iter_NoDup sample_set_iter_elem
           (raw_entity "type_1" "user_test123" "acct_test123"
              [("python_type", JStr "str")])
           (raw_entity "type_1" "user_other456" "acct_other456"
              [("python_type", JStr "int")])
           _ _ 100 eq_refl eq_refl eq_refl Hown Hacc HL).
Defined.

Lemma sample_load_ok : fst (sample_load sample_dataset DataStore_init) = Ok tt.
Proof. vm_compute. reflexivity. Qed.

(** X14 on the sample dataset. *)
Lemma X14_sample_dataset :
  distinct_ids sample_Type_new sample_Validator_new sample_Field_new sample_Object_new
    sample_dataset
  ∧ fst (sample_load sample_dataset DataStore_init) = Ok tt
  ∧ health sample_store
    = {| h_types := length (ds_types sample_dataset);
         h_validators := length (ds_validators sample_dataset);
         h_fields := length (ds_fields sample_dataset);
         h_objects := length (ds_objects sample_dataset) |}
  ∧ (∀ raw o, raw ∈ ds_types sample_dataset → sample_Type_new raw = Ok o →
       get_type sample_store (Type_.id o) (Type_.owner_id o) (Type_.account_id o)
       = Some o)
  ∧ (∀ raw o, raw ∈ ds_validators sample_dataset → sample_Validator_new raw = Ok o →
       get_validator sample_store
         (Validator.id o) (Validator.owner_id o) (Validator.account_id o) = Some o)
  ∧ (∀ raw o, raw ∈ ds_fields sample_dataset → sample_Field_new raw = Ok o →
       get_field sample_store (Field.id o) (Field.owner_id o) (Field.account_id o)
       = Some o)
  ∧ (∀ raw o, raw ∈ ds_objects sample_dataset → sample_Object_new raw = Ok o →
       get_object sample_store (Object.id o) (Object.owner_id o) (Object.account_id o)
       = Some o).
Proof.
  split; [exact sample_dataset_distinct|]. split; [exact sample_load_ok|].
  exact (X14_loaded_dataset_is_all_there sample_Type_new sample_Validator_new
           sample_Field_new sample_Object_new sample_dataset
           sample_dataset_distinct sample_load_ok).
Defined.

Lemma broken_first_call :
  get_data_store sample_Type_new sample_Validator_new sample_Field_new sample_Object_new
    (dataset_file broken_dataset) None
  = (Raise (ValidationError "python_type: Input should be a valid string"),
     Some (snd (sample_load broken_dataset DataStore_init))).
Proof. vm_compute. reflexivity. Qed.

(** X15 on the broken dataset: the second call, made when the fixtures have
    been repaired, still returns the store with the one type. *)
Lemma X15_sample_broken_start :
  get_data_store sample_Type_new sample_Validator_new sample_Field_new sample_Object_new
    (dataset_file broken_dataset) None
  = (Raise (ValidationError "python_type: Input should be a valid string"),
     Some (snd (sample_load broken_dataset DataStore_init)))
  ∧ Some (snd (sample_load broken_dataset DataStore_init))
    = Some (snd (sample_load broken_dataset DataStore_init))
  ∧ fst (sample_load broken_dataset DataStore_init)
    = Raise (ValidationError "python_type: Input should be a valid string")
  ∧ ∀ file',
      get_data_store sample_Type_new sample_Validator_new sample_Field_new
        sample_Object_new file' (Some (snd (sample_load broken_dataset DataStore_init)))
      = (Ok (snd (sample_load broken_dataset DataStore_init)),
         Some (snd (sample_load broken_dataset DataStore_init))).
Proof.
  split; [exact broken_first_call|].
  exact (X15_failed_first_load_is_never_retried sample_Type_new sample_Validator_new
           sample_Field_new sample_Object_new (dataset_file broken_dataset)
           (ValidationError "python_type: Input should be a valid string")
           (Some (snd (sample_load broken_dataset DataStore_init)))
           broken_first_call).
Defined.
